(** * messagely: the user store and the login / registration routes

    A shallow embedding of [src/models/user.js] (class [User]) and of
    [src/routes/auth.js] (POST /login, POST /register).

    The JavaScript code is asynchronous but strictly sequential inside one
    request: every [await] is a call to one of three collaborators (the
    database client, bcrypt, jsonwebtoken).  It is modelled in a state and
    exception monad over a [World] that holds the two tables, the database
    clock, the entropy used for salts and the chronological trace of the
    calls made to the collaborators.

    The routes hand the fields of the request body on unchecked, so a
    username or password is a [jsval]: absent, null, a string or another
    JSON value.  The queries have no ORDER BY, so the order in which the
    store returns the rows of a listing is a parameter, [arrange]. *)

From Stdlib Require Import String List ZArith Bool Lia Permutation.
Import ListNotations.
Local Open Scope string_scope.
Local Open Scope Z_scope.

(** ** Exceptions *)

(** Modelled from the spec: [expressError.js] is not among the sources; an
    ExpressError carries a human-readable message and a response-status
    hint.  [DatabaseError] is the error object with which the database
    client rejects a failed statement; its [code] is the SQLSTATE.
    [Error] is a plain JavaScript error, as a library throws it: it has a
    message and no status. *)
Inductive exn : Type :=
| ExpressError (message : string) (status : Z)
| DatabaseError (code : string)
| Error (message : string).

(** The error kinds of the specification, as the code spells them. *)
Definition ValidationError : exn :=
  ExpressError "All fields are required" 400.
Definition ConflictError (username : string) : exn :=
  ExpressError ("Username " ++ username ++ " already exists") 400.
Definition AuthError : exn :=
  ExpressError "Invalid username/password" 400.
Definition NotFoundError (message : string) : exn :=
  ExpressError message 404.

Definition status_of (e : exn) : option Z :=
  match e with
  | ExpressError _ s => Some s
  | DatabaseError _ => None
  | Error _ => None
  end.

Definition message_of (e : exn) : option string :=
  match e with
  | ExpressError m _ => Some m
  | DatabaseError _ => None
  | Error m => Some m
  end.

(** ** Values of a request body *)

(** A field of the parsed JSON body, as the routes destructure it from
    [req.body] and pass it on unchecked: absent ([undefined]), [null], a
    string, or any other JSON value (number, boolean, array, object).  Of
    such another value the code only uses its truthiness, the text the
    database client sends for it as a query parameter, and its string
    form inside a template literal. *)
Inductive jsval : Type :=
| JUndefined
| JNull
| JString (s : string)
| JOther (truthy : bool) (sent shown : string).

(** [!v] *)
Definition falsy (v : jsval) : bool :=
  match v with
  | JUndefined | JNull => true
  | JString s => (s =? "")%string
  | JOther t _ _ => negb t
  end.

Definition is_string (v : jsval) : bool :=
  match v with
  | JString _ => true
  | _ => false
  end.

(** The query parameter the database client sends for a value:
    [undefined] and [null] go as NULL. *)
Definition pg_param (v : jsval) : option string :=
  match v with
  | JUndefined | JNull => None
  | JString s => Some s
  | JOther _ sent _ => Some sent
  end.

(** The text sent for a value that passed the presence test of
    [register]; such a value is neither [undefined] nor [null]. *)
Definition text (v : jsval) : string :=
  match v with
  | JString s => s
  | JOther _ sent _ => sent
  | JUndefined | JNull => ""
  end.

(** [`${v}`] *)
Definition show (v : jsval) : string :=
  match v with
  | JUndefined => "undefined"
  | JNull => "null"
  | JString s => s
  | JOther _ _ shown => shown
  end.

(** A row picked with [rows[0]] is absent or an object. *)
Definition missing {A} (v : option A) : bool :=
  match v with
  | None => true
  | Some _ => false
  end.

(** ** Tables *)

Module UserRow.
Record t : Type := mk {
  username : string;
  password : string;
  first_name : string;
  last_name : string;
  phone : string;
  join_at : Z;
  last_login_at : Z
}.
End UserRow.

Module MessageRow.
Record t : Type := mk {
  id : Z;
  from_username : string;
  to_username : string;
  body : string;
  sent_at : Z;
  read_at : option Z
}.
End MessageRow.

(** The public profile of a user: what [all] lists and what a message
    carries about its counterpart. *)
Module PublicProfile.
Record t : Type := mk {
  username : string;
  first_name : string;
  last_name : string;
  phone : string
}.

Definition of_row (r : UserRow.t) : t :=
  mk (UserRow.username r) (UserRow.first_name r)
     (UserRow.last_name r) (UserRow.phone r).
End PublicProfile.

(** ** Calls to the collaborators, in the order they are made *)

Inductive statement : Type :=
| InsertUser (username : string)
| SelectPassword (username : option string)
| UpdateLastLogin (username : option string)
| SelectAllUsers
| SelectUser (username : string)
| SelectMessagesFrom (username : string)
| SelectMessagesTo (username : string).

Inductive effect : Type :=
| EHash (data : jsval)
| ECompare (data : jsval) (hash : string)
| EQuery (q : statement)
| ESign (username : jsval).

(** [users] and [messages] hold the rows of the two tables.  The order of
    these lists is the model's bookkeeping only: the queries of the code
    have no ORDER BY, and the order in which the store returns the rows of
    a listing is the store's choice (see [arrange] below). *)
Record World : Type := mkWorld {
  users : list UserRow.t;
  messages : list MessageRow.t;
  clock : Z;
  seed : nat;
  trace : list effect
}.

(** ** The monad of the asynchronous code *)

Definition M (A : Type) : Type := World -> (exn + A) * World.

Definition ret {A} (a : A) : M A := fun w => (inr a, w).

Definition throw {A} (e : exn) : M A := fun w => (inl e, w).

Definition bind {A B} (c : M A) (k : A -> M B) : M B :=
  fun w =>
    match c w with
    | (inr a, w') => k a w'
    | (inl e, w') => (inl e, w')
    end.

(** [try { c } catch (err) { h err }] *)
Definition try_catch {A} (c : M A) (h : exn -> M A) : M A :=
  fun w =>
    match c w with
    | (inr a, w') => (inr a, w')
    | (inl e, w') => h e w'
    end.

Declare Scope js_scope.
Delimit Scope js_scope with js.
Notation "x <- c ;; k" := (bind c (fun x => k))
  (at level 100, c at next level, right associativity) : js_scope.
Notation "c ;; k" := (bind c (fun _ => k))
  (at level 100, right associativity) : js_scope.
Local Open Scope js_scope.

Definition emit (e : effect) : M unit :=
  fun w => (inr tt,
            mkWorld (users w) (messages w) (clock w) (seed w) (trace w ++ [e])).

(** Time passes on the database server between two statements. *)
Definition tick : M unit :=
  fun w => (inr tt,
            mkWorld (users w) (messages w) (clock w + 1) (seed w) (trace w)).

Definition current_timestamp : M Z := fun w => (inr (clock w), w).

(** ** bcrypt, jsonwebtoken, the configuration and the store's row order *)

(** [config.js], bcrypt, jsonwebtoken and the database are not among the
    sources; what the code needs of them is a parameter of the
    development.
    - [BCRYPT_WORK_FACTOR], [SECRET_KEY]: the two constants of the
      configuration.
    - [bcrypt_hash_fn data rounds seed] is the hash of the string [data]
      under the salt drawn from [seed]; [bcrypt_compare_fn data hash]
      tells whether the string [data] matches [hash].  Given data that is
      not a string, bcrypt rejects with a plain Error, whose messages are
      [bcrypt_hash_error] and [bcrypt_compare_error].
    - [jwt_sign_fn username key] is the token signed over the payload
      [{ username }].
    - [arrange q w rows] is the order in which the store returns the rows
      of the listing [q] in the state [w]: some permutation of them. *)
Class Capabilities : Type := {
  BCRYPT_WORK_FACTOR : Z;
  SECRET_KEY : string;
  bcrypt_hash_fn : string -> Z -> nat -> string;
  bcrypt_compare_fn : string -> string -> bool;
  bcrypt_hash_error : jsval -> string;
  bcrypt_compare_error : jsval -> string;
  jwt_sign_fn : jsval -> string -> string;
  arrange : forall R : Type, statement -> World -> list R -> list R;
  arrange_permutation :
    forall (R : Type) (q : statement) (w : World) (rows : list R),
      Permutation (arrange R q w rows) rows
}.
Arguments arrange {_} {R} _ _ _.

Module bcrypt.
Section WithCapabilities.
Context `{Capabilities}.

Definition hash (data : jsval) (rounds : Z) : M string :=
  emit (EHash data) ;;
  match data with
  | JString s =>
      fun w =>
        (inr (bcrypt_hash_fn s rounds (seed w)),
         mkWorld (users w) (messages w) (clock w) (S (seed w)) (trace w))
  | _ => throw (Error (bcrypt_hash_error data))
  end.

Definition compare (data : jsval) (hashed : string) : M bool :=
  emit (ECompare data hashed) ;;
  match data with
  | JString s => ret (bcrypt_compare_fn s hashed)
  | _ => throw (Error (bcrypt_compare_error data))
  end.
End WithCapabilities.
End bcrypt.

Module jwt.
Section WithCapabilities.
Context `{Capabilities}.

(** [jwt.sign({ username }, key)] *)
Definition sign (username : jsval) (key : string) : M string :=
  emit (ESign username) ;;
  ret (jwt_sign_fn username key).
End WithCapabilities.
End jwt.

(** ** The database client *)

(** What a resolved query gives back.  The client's result object has a
    [rows] array and no [code] property: reading [result.code] yields
    [undefined], here [None]. *)
Module Result.
Record t (R : Type) : Type := mk { rows : list R; code : option string }.
Arguments mk {R} _ _.
Arguments rows {R} _.
Arguments code {R} _.
Definition resolved {R} (l : list R) : t R := mk l None.
End Result.

Module Db.

(** Row shapes of the RETURNING and SELECT lists. *)
Record registered : Type := mkRegistered {
  r_username : string;
  r_password : string;
  r_first_name : string;
  r_last_name : string;
  r_phone : string
}.

Record login_stamp : Type := mkLoginStamp {
  s_username : string;
  s_last_login_at : Z
}.

Record profile : Type := mkProfile {
  p_username : string;
  p_first_name : string;
  p_last_name : string;
  p_phone : string;
  p_join_at : Z;
  p_last_login_at : Z
}.

(** One row of the join of [messages] with [users]; [counterpart] is the
    selected username column of the message ([to_username] in
    [messagesFrom], [from_username] in [messagesTo]). *)
Record joined : Type := mkJoined {
  j_id : Z;
  j_counterpart : string;
  j_body : string;
  j_sent_at : Z;
  j_read_at : option Z;
  j_first_name : string;
  j_last_name : string;
  j_phone : string
}.

Definition has_user (name : string) (l : list UserRow.t) : bool :=
  existsb (fun r => (UserRow.username r =? name)%string) l.

(** [username = $1]: no row equals a NULL parameter. *)
Definition row_matches (param : option string) (r : UserRow.t) : bool :=
  match param with
  | Some name => (UserRow.username r =? name)%string
  | None => false
  end.

(** Modelled from the spec: [db.js] is not among the sources.  The store
    is a relational database reached by parameterized queries; [username]
    is the primary key of [users], enforced by the storage layer, and a
    failed storage call terminates the operation: the statement is
    rejected with the database's error (SQLSTATE 23505, unique
    violation) and nothing is written.

    INSERT INTO users (...) VALUES ($1, $2, $3, $4, $5,
      current_timestamp, current_timestamp)
    RETURNING username, password, first_name, last_name, phone *)
Definition insert_user (username password first_name last_name phone : string)
  : M (Result.t registered) :=
  emit (EQuery (InsertUser username)) ;;
  now <- current_timestamp ;;
  tick ;;
  fun w =>
    if has_user username (users w)
    then (inl (DatabaseError "23505"), w)
    else (inr (Result.resolved
                 [mkRegistered username password first_name last_name phone]),
          mkWorld (users w ++ [UserRow.mk username password first_name
                                 last_name phone now now])
                  (messages w) (clock w) (seed w) (trace w)).

(** SELECT password FROM users WHERE username = $1 *)
Definition select_password (username : option string)
  : M (Result.t string) :=
  emit (EQuery (SelectPassword username)) ;;
  tick ;;
  fun w =>
    (inr (Result.resolved
            (map UserRow.password
                 (filter (row_matches username) (users w)))), w).

Definition stamp (username : option string) (now : Z) (r : UserRow.t)
  : UserRow.t :=
  if row_matches username r
  then UserRow.mk (UserRow.username r) (UserRow.password r)
                  (UserRow.first_name r) (UserRow.last_name r)
                  (UserRow.phone r) (UserRow.join_at r) now
  else r.

(** UPDATE users SET last_login_at = current_timestamp
    WHERE username = $1 RETURNING username, last_login_at

    The new version of a row takes the list position of the old one; this
    is bookkeeping and not what a later listing shows: where the store
    lists the updated row is decided by [arrange], anew in every state. *)
Definition update_last_login (username : option string)
  : M (Result.t login_stamp) :=
  emit (EQuery (UpdateLastLogin username)) ;;
  now <- current_timestamp ;;
  tick ;;
  fun w =>
    let updated := map (stamp username now) (users w) in
    (inr (Result.resolved
            (map (fun r => mkLoginStamp (UserRow.username r)
                                        (UserRow.last_login_at r))
                 (filter (row_matches username) updated))),
     mkWorld updated (messages w) (clock w) (seed w) (trace w)).

(** SELECT username, first_name, last_name, phone, join_at, last_login_at
    FROM users WHERE username = $1 *)
Definition select_user (username : string) : M (Result.t profile) :=
  emit (EQuery (SelectUser username)) ;;
  tick ;;
  fun w =>
    (inr (Result.resolved
            (map (fun r => mkProfile (UserRow.username r)
                             (UserRow.first_name r) (UserRow.last_name r)
                             (UserRow.phone r) (UserRow.join_at r)
                             (UserRow.last_login_at r))
                 (filter (fun r => (UserRow.username r =? username)%string)
                         (users w)))), w).

(** The rows that satisfy
    FROM messages AS m JOIN users AS u ON [on_col m] = u.username
    WHERE [where_col m] = $1,
    with the message columns, [on_col m] and u.first_name, u.last_name,
    u.phone selected.  This is the content of the result; the order in
    which the store returns it is given by [arrange]. *)
Definition joined_rows (on_col where_col : MessageRow.t -> string)
           (username : string)
           (ms : list MessageRow.t) (us : list UserRow.t) : list joined :=
  flat_map
    (fun m =>
       if (where_col m =? username)%string
       then map (fun u => mkJoined (MessageRow.id m) (on_col m)
                            (MessageRow.body m) (MessageRow.sent_at m)
                            (MessageRow.read_at m) (UserRow.first_name u)
                            (UserRow.last_name u) (UserRow.phone u))
                (filter (fun u => (on_col m =? UserRow.username u)%string) us)
       else [])
    ms.

Section WithCapabilities.
Context `{Capabilities}.

(** SELECT username, first_name, last_name, phone FROM users *)
Definition select_all_users : M (Result.t PublicProfile.t) :=
  emit (EQuery SelectAllUsers) ;;
  tick ;;
  fun w =>
    (inr (Result.resolved
            (arrange SelectAllUsers w
               (map PublicProfile.of_row (users w)))), w).

(** ... JOIN users AS u ON m.to_username = u.username
    WHERE m.from_username = $1 *)
Definition select_messages_from (username : string)
  : M (Result.t joined) :=
  emit (EQuery (SelectMessagesFrom username)) ;;
  tick ;;
  fun w =>
    (inr (Result.resolved
            (arrange (SelectMessagesFrom username) w
               (joined_rows MessageRow.to_username MessageRow.from_username
                            username (messages w) (users w)))), w).

(** ... JOIN users AS u ON m.from_username = u.username
    WHERE m.to_username = $1 *)
Definition select_messages_to (username : string)
  : M (Result.t joined) :=
  emit (EQuery (SelectMessagesTo username)) ;;
  tick ;;
  fun w =>
    (inr (Result.resolved
            (arrange (SelectMessagesTo username) w
               (joined_rows MessageRow.from_username MessageRow.to_username
                            username (messages w) (users w)))), w).
End WithCapabilities.

End Db.

(** ** models/user.js *)

(** The object [register] destructures. *)
Module Fields.
Record t : Type := mk {
  username : jsval;
  password : jsval;
  first_name : jsval;
  last_name : jsval;
  phone : jsval
}.
End Fields.

Module SentMessage.
Record t : Type := mk {
  id : Z;
  to_user : PublicProfile.t;
  body : string;
  sent_at : Z;
  read_at : option Z
}.
End SentMessage.

Module ReceivedMessage.
Record t : Type := mk {
  id : Z;
  from_user : PublicProfile.t;
  body : string;
  sent_at : Z;
  read_at : option Z
}.
End ReceivedMessage.

(** [rows[0]]: the first row, or [undefined] when there is none. *)
Definition first_row {R} (l : list R) : option R := nth_error l 0.

Module User.
Section WithCapabilities.
Context `{Capabilities}.

Definition register (f : Fields.t) : M (option Db.registered) :=
  if falsy (Fields.username f) || falsy (Fields.password f)
     || falsy (Fields.first_name f) || falsy (Fields.last_name f)
     || falsy (Fields.phone f)
  then throw (ExpressError "All fields are required" 400)
  else
    hashedPwd <- bcrypt.hash (Fields.password f) BCRYPT_WORK_FACTOR ;;
    result <- Db.insert_user (text (Fields.username f)) hashedPwd
                (text (Fields.first_name f)) (text (Fields.last_name f))
                (text (Fields.phone f)) ;;
    match Result.code result with
    | Some "23505"%string =>
        throw (ExpressError ("Username " ++ show (Fields.username f)
                             ++ " already exists") 400)
    | _ => ret (first_row (Result.rows result))
    end.

Definition authenticate (username password : jsval) : M bool :=
  result <- Db.select_password (pg_param username) ;;
  let user := first_row (Result.rows result) in
  match user with
  | None => throw (ExpressError "Invalid username/password" 400)
  | Some stored => bcrypt.compare password stored
  end.

Definition updateLoginTimestamp (username : jsval) : M Db.login_stamp :=
  result <- Db.update_last_login (pg_param username) ;;
  match first_row (Result.rows result) with
  | None => throw (ExpressError ("No such user: " ++ show username) 404)
  | Some row => ret row
  end.

Definition all : M (list PublicProfile.t) :=
  results <- Db.select_all_users ;;
  if missing (first_row (Result.rows results))
  then throw (ExpressError "No users found" 404)
  else ret (Result.rows results).

(** [get], [messagesFrom] and [messagesTo] have no caller among the
    sources; their argument is taken to be a string. *)
Definition get (username : string) : M Db.profile :=
  results <- Db.select_user username ;;
  match first_row (Result.rows results) with
  | None => throw (ExpressError ("No such user: " ++ username) 404)
  | Some row => ret row
  end.

Definition messagesFrom (username : string) : M (list SentMessage.t) :=
  results <- Db.select_messages_from username ;;
  if missing (first_row (Result.rows results))
  then throw (ExpressError ("No messages found from: " ++ username) 404)
  else
    ret (map (fun row =>
                SentMessage.mk (Db.j_id row)
                  (PublicProfile.mk (Db.j_counterpart row)
                     (Db.j_first_name row) (Db.j_last_name row)
                     (Db.j_phone row))
                  (Db.j_body row) (Db.j_sent_at row) (Db.j_read_at row))
             (Result.rows results)).

Definition messagesTo (username : string) : M (list ReceivedMessage.t) :=
  results <- Db.select_messages_to username ;;
  if missing (first_row (Result.rows results))
  then throw (ExpressError ("No messages found to: " ++ username) 404)
  else
    ret (map (fun row =>
                ReceivedMessage.mk (Db.j_id row)
                  (PublicProfile.mk (Db.j_counterpart row)
                     (Db.j_first_name row) (Db.j_last_name row)
                     (Db.j_phone row))
                  (Db.j_body row) (Db.j_sent_at row) (Db.j_read_at row))
             (Result.rows results)).
End WithCapabilities.
End User.

(** ** routes/auth.js *)

(** What a handler hands back: [res.json(body)] or [next(err)]. *)
Inductive response : Type :=
| Json (message : option string) (token : string)
| Next (err : exn).

Module auth.
Section WithCapabilities.
Context `{Capabilities}.

(** router.post("/login", ...); [username] and [password] are the two
    fields destructured from [req.body]. *)
Definition login (username password : jsval) : M response :=
  try_catch
    (authenticated <- User.authenticate username password ;;
     if authenticated : bool
     then
       User.updateLoginTimestamp username ;;
       token <- jwt.sign username SECRET_KEY ;;
       ret (Json (Some "Logged in!"%string) token)
     else throw (ExpressError "Invalid username/password" 400))
    (fun err => ret (Next err)).

(** router.post("/register", ...) *)
Definition register (body : Fields.t) : M response :=
  try_catch
    (user <- User.register body ;;
     token <- jwt.sign (Fields.username body) SECRET_KEY ;;
     User.updateLoginTimestamp (Fields.username body) ;;
     ret (Json None token))
    (fun err => ret (Next err)).
End WithCapabilities.
End auth.

(** ** A concrete instance of the parameters, to run the model *)

Module Toy.
Definition hash (data : string) (rounds : Z) (seed : nat) : string :=
  "$2b$" ++ data.
Definition compare (data hashed : string) : bool :=
  (hashed =? "$2b$" ++ data)%string.
Definition hash_error (data : jsval) : string :=
  match data with
  | JUndefined | JNull => "data and salt arguments required"
  | _ => "data must be a string or Buffer and salt must either be a salt string or a number of rounds"
  end.
Definition compare_error (data : jsval) : string :=
  match data with
  | JUndefined | JNull => "data and hash arguments required"
  | _ => "data and hash must be strings"
  end.
Definition sign (username : jsval) (key : string) : string :=
  show username ++ "." ++ key.

(** This store returns the rows of a listing last row first. *)
Definition backwards (R : Type) (q : statement) (w : World) (rows : list R)
  : list R := rev rows.

Definition capabilities : Capabilities :=
  {| BCRYPT_WORK_FACTOR := 12;
     SECRET_KEY := "secret";
     bcrypt_hash_fn := hash;
     bcrypt_compare_fn := compare;
     bcrypt_hash_error := hash_error;
     bcrypt_compare_error := compare_error;
     jwt_sign_fn := sign;
     arrange := backwards;
     arrange_permutation :=
       fun R q w rows => Permutation_sym (Permutation_rev rows) |}.

Definition empty : World := mkWorld [] [] 1000 0 [].

Definition alice : Fields.t :=
  Fields.mk (JString "alice") (JString "wonderland") (JString "Alice")
            (JString "Liddell") (JString "555-0100").

Definition bob : Fields.t :=
  Fields.mk (JString "bob") (JString "builder") (JString "Bob")
            (JString "Mason") (JString "555-0101").

Definition alice_row : UserRow.t :=
  UserRow.mk "alice" "$2b$wonderland" "Alice" "Liddell" "555-0100" 1000 1000.

Definition bob_row : UserRow.t :=
  UserRow.mk "bob" "$2b$builder" "Bob" "Mason" "555-0101" 1001 1001.

(** alice and bob registered; alice wrote twice to bob, bob once to
    alice. *)
Definition chat : World :=
  mkWorld [alice_row; bob_row]
          [MessageRow.mk 1 "alice" "bob" "hello" 1002 None;
           MessageRow.mk 2 "bob" "alice" "hi" 1003 (Some 1004);
           MessageRow.mk 3 "alice" "bob" "bye" 1005 None]
          1006 2 [].
End Toy.

(** ** Observations on a world *)

Definition find_user (name : string) (w : World) : option UserRow.t :=
  find (fun r => (UserRow.username r =? name)%string) (users w).

(** The row a query finds for the parameter [username = $1]. *)
Definition find_param (param : option string) (w : World)
  : option UserRow.t :=
  match param with
  | Some name => find_user name w
  | None => None
  end.

Definition sent_by (name : string) (w : World) : list MessageRow.t :=
  filter (fun m => (MessageRow.from_username m =? name)%string) (messages w).

Definition received_by (name : string) (w : World) : list MessageRow.t :=
  filter (fun m => (MessageRow.to_username m =? name)%string) (messages w).

(** The constraints the tables are declared with: [username] is the primary
    key of [users]; [from_username] and [to_username] of a message are
    foreign keys into [users]. *)
Definition primary_key (w : World) : Prop :=
  NoDup (map UserRow.username (users w)).

Definition foreign_keys (w : World) : Prop :=
  Forall (fun m =>
            In (MessageRow.from_username m) (map UserRow.username (users w))
            /\ In (MessageRow.to_username m) (map UserRow.username (users w)))
         (messages w).

Definition integrity (w : World) : Prop := primary_key w /\ foreign_keys w.

(** Position of the first occurrence of a call in a trace, and the order of
    two calls. *)
Definition param_eqb (a b : option string) : bool :=
  match a, b with
  | Some x, Some y => (x =? y)%string
  | None, None => true
  | _, _ => false
  end.

Definition jsval_eqb (a b : jsval) : bool :=
  match a, b with
  | JUndefined, JUndefined => true
  | JNull, JNull => true
  | JString x, JString y => (x =? y)%string
  | JOther t x s, JOther t' x' s' =>
      Bool.eqb t t' && (x =? x')%string && (s =? s')%string
  | _, _ => false
  end.

Definition statement_eqb (a b : statement) : bool :=
  match a, b with
  | InsertUser x, InsertUser y => (x =? y)%string
  | SelectPassword x, SelectPassword y => param_eqb x y
  | UpdateLastLogin x, UpdateLastLogin y => param_eqb x y
  | SelectAllUsers, SelectAllUsers => true
  | SelectUser x, SelectUser y => (x =? y)%string
  | SelectMessagesFrom x, SelectMessagesFrom y => (x =? y)%string
  | SelectMessagesTo x, SelectMessagesTo y => (x =? y)%string
  | _, _ => false
  end.

Definition effect_eqb (a b : effect) : bool :=
  match a, b with
  | EHash x, EHash y => jsval_eqb x y
  | ECompare x h, ECompare y k => jsval_eqb x y && (h =? k)%string
  | EQuery p, EQuery q => statement_eqb p q
  | ESign x, ESign y => jsval_eqb x y
  | _, _ => false
  end.

Fixpoint position (e : effect) (l : list effect) : option nat :=
  match l with
  | [] => None
  | x :: l' => if effect_eqb e x then Some 0%nat
               else option_map S (position e l')
  end.

Definition happens_before (a b : effect) (l : list effect) : Prop :=
  exists i j, position a l = Some i /\ position b l = Some j /\ (i < j)%nat.

(** The calls made between two worlds. *)
Definition calls_since (w w' : World) : list effect :=
  skipn (length (trace w)) (trace w').

(** ** Worlds reached by the operations *)

(** Every required field passes the presence test of [register]. *)
Definition all_present (f : Fields.t) : bool :=
  negb (falsy (Fields.username f) || falsy (Fields.password f)
        || falsy (Fields.first_name f) || falsy (Fields.last_name f)
        || falsy (Fields.phone f)).

(** The world after bcrypt was called and rejected the password. *)
Definition after_hash_rejected (f : Fields.t) (w : World) : World :=
  mkWorld (users w) (messages w) (clock w) (seed w)
          (trace w ++ [EHash (Fields.password f)]).

(** The world after the hash and the INSERT statement were issued. *)
Definition after_insert_attempt (f : Fields.t) (w : World) : World :=
  mkWorld (users w) (messages w) (clock w + 1) (S (seed w))
          (trace w ++ [EHash (Fields.password f);
                       EQuery (InsertUser (text (Fields.username f)))]).

Section Reached.
Context `{Capabilities}.

(** The row the INSERT statement adds. *)
Definition inserted_row (f : Fields.t) (w : World) : UserRow.t :=
  UserRow.mk (text (Fields.username f))
             (bcrypt_hash_fn (text (Fields.password f)) BCRYPT_WORK_FACTOR
                             (seed w))
             (text (Fields.first_name f)) (text (Fields.last_name f))
             (text (Fields.phone f)) (clock w) (clock w).

Definition after_insert (f : Fields.t) (w : World) : World :=
  mkWorld (users w ++ [inserted_row f w]) (messages w) (clock w + 1)
          (S (seed w)) (trace (after_insert_attempt f w)).

End Reached.

(** The world after the UPDATE statement of [updateLoginTimestamp]. *)
Definition after_update (username : option string) (w : World) : World :=
  mkWorld (map (Db.stamp username (clock w)) (users w)) (messages w)
          (clock w + 1) (seed w)
          (trace w ++ [EQuery (UpdateLastLogin username)]).

(** What [messagesFrom] reports about a stored message: the message's own
    columns and the public profile of the user it was sent to; and the
    same for [messagesTo] with the user it came from. *)
Definition sent_view (w : World) (m : MessageRow.t) (o : SentMessage.t)
  : Prop :=
  SentMessage.id o = MessageRow.id m
  /\ SentMessage.body o = MessageRow.body m
  /\ SentMessage.sent_at o = MessageRow.sent_at m
  /\ SentMessage.read_at o = MessageRow.read_at m
  /\ exists r, find_user (MessageRow.to_username m) w = Some r
              /\ SentMessage.to_user o = PublicProfile.of_row r.

Definition received_view (w : World) (m : MessageRow.t) (o : ReceivedMessage.t)
  : Prop :=
  ReceivedMessage.id o = MessageRow.id m
  /\ ReceivedMessage.body o = MessageRow.body m
  /\ ReceivedMessage.sent_at o = MessageRow.sent_at m
  /\ ReceivedMessage.read_at o = MessageRow.read_at m
  /\ exists r, find_user (MessageRow.from_username m) w = Some r
              /\ ReceivedMessage.from_user o = PublicProfile.of_row r.

(** The row the join produces for message [m] matched with user [r]. *)
Definition joined_row (on_col : MessageRow.t -> string)
           (m : MessageRow.t) (r : UserRow.t) : Db.joined :=
  Db.mkJoined (MessageRow.id m) (on_col m) (MessageRow.body m)
              (MessageRow.sent_at m) (MessageRow.read_at m)
              (UserRow.first_name r) (UserRow.last_name r) (UserRow.phone r).

(** The entry [messagesFrom] / [messagesTo] makes of a joined row. *)
Definition sent_entry (row : Db.joined) : SentMessage.t :=
  SentMessage.mk (Db.j_id row)
    (PublicProfile.mk (Db.j_counterpart row) (Db.j_first_name row)
       (Db.j_last_name row) (Db.j_phone row))
    (Db.j_body row) (Db.j_sent_at row) (Db.j_read_at row).

Definition received_entry (row : Db.joined) : ReceivedMessage.t :=
  ReceivedMessage.mk (Db.j_id row)
    (PublicProfile.mk (Db.j_counterpart row) (Db.j_first_name row)
       (Db.j_last_name row) (Db.j_phone row))
    (Db.j_body row) (Db.j_sent_at row) (Db.j_read_at row).

Definition after_select (q : statement) (w : World) : World :=
  mkWorld (users w) (messages w) (clock w + 1) (seed w)
          (trace w ++ [EQuery q]).

(** ** Vocabulary of the further properties *)

(** bcrypt's contract: comparing some data with a hash made from the same
    data succeeds, whatever the work factor and the salt. *)
Definition compare_accepts_hash `{Capabilities} : Prop :=
  forall data rounds seed,
    bcrypt_compare_fn data (bcrypt_hash_fn data rounds seed) = true.

(** The entries of a list operation's result; a failure lists nothing. *)
Definition listed {A} (r : exn + list A) : list A :=
  match r with
  | inr l => l
  | inl _ => []
  end.

(** [new] is [old] up to last_login_at, and is [old] itself unless the
    row is the one the parameter [username = $1] selects. *)
Definition same_but_last_login (param : option string) (old new : UserRow.t)
  : Prop :=
  UserRow.username new = UserRow.username old
  /\ UserRow.password new = UserRow.password old
  /\ UserRow.first_name new = UserRow.first_name old
  /\ UserRow.last_name new = UserRow.last_name old
  /\ UserRow.phone new = UserRow.phone old
  /\ UserRow.join_at new = UserRow.join_at old
  /\ (Db.row_matches param old = false -> new = old).

(** The tables of two worlds are the same. *)
Definition same_tables (w w' : World) : Prop :=
  users w' = users w /\ messages w' = messages w.

(** Two results of a list operation show the same thing: the same failure,
    or the same entries in whatever order. *)
Definition same_listing {A} (r r' : exn + list A) : Prop :=
  match r, r' with
  | inl e, inl e' => e = e'
  | inr l, inr l' => Permutation l l'
  | _, _ => False
  end.

(** * Properties *)

(** ** Rows and lookups *)

Lemma first_row_filter {A} (f : A -> bool) (l : list A) :
  first_row (filter f l) = find f l.
Proof.
  induction l as [|x l IH]; simpl; [reflexivity|].
  destruct (f x); [reflexivity | exact IH].
Qed.

Lemma first_row_map {A B} (g : A -> B) (l : list A) :
  first_row (map g l) = option_map g (first_row l).
Proof. destruct l; reflexivity. Qed.

Lemma first_row_param param w :
  first_row (filter (Db.row_matches param) (users w)) = find_param param w.
Proof.
  rewrite first_row_filter. destruct param as [name|]; simpl.
  - reflexivity.
  - induction (users w); simpl; auto.
Qed.

Lemma has_user_find name l :
  Db.has_user name l =
  negb (missing (find (fun r => (UserRow.username r =? name)%string) l)).
Proof.
  unfold Db.has_user.
  induction l as [|r l IH]; simpl; [reflexivity|].
  destruct (UserRow.username r =? name)%string; simpl; [reflexivity | exact IH].
Qed.

Lemma has_user_In name l :
  Db.has_user name l = true <-> In name (map UserRow.username l).
Proof.
  unfold Db.has_user. rewrite existsb_exists, in_map_iff.
  split; intros [r [H1 H2]]; exists r.
  - apply String.eqb_eq in H2. auto.
  - split; [exact H2 | apply String.eqb_eq; exact H1].
Qed.

Lemma find_app_fresh {A} (f : A -> bool) (l1 l2 : list A) :
  find f l1 = None -> find f (l1 ++ l2) = find f l2.
Proof.
  induction l1 as [|x l1 IH]; simpl; [reflexivity|].
  destruct (f x); [discriminate | exact IH].
Qed.

Lemma falsy_text v : falsy v = false -> pg_param v = Some (text v).
Proof. destruct v; simpl; try reflexivity; discriminate. Qed.

Lemma all_present_fields f :
  all_present f = true ->
  falsy (Fields.username f) = false /\ falsy (Fields.password f) = false
  /\ falsy (Fields.first_name f) = false /\ falsy (Fields.last_name f) = false
  /\ falsy (Fields.phone f) = false.
Proof.
  unfold all_present. intros Hf. apply negb_true_iff in Hf.
  repeat (apply orb_false_iff in Hf; destruct Hf as [Hf ?]).
  repeat split; assumption.
Qed.

(** ** What each operation of [User] computes *)

Section Runs.
Context `{Capabilities}.

Lemma register_invalid f w :
  all_present f = false ->
  User.register f w = (inl ValidationError, w).
Proof.
  unfold all_present, User.register. intros Hf.
  apply negb_false_iff in Hf. rewrite Hf. reflexivity.
Qed.

Lemma register_not_string f w :
  all_present f = true ->
  is_string (Fields.password f) = false ->
  User.register f w =
  (inl (Error (bcrypt_hash_error (Fields.password f))),
   after_hash_rejected f w).
Proof.
  unfold all_present, User.register. intros Hf Hs.
  apply negb_true_iff in Hf. rewrite Hf.
  unfold bind, bcrypt.hash, bind, emit, throw, after_hash_rejected.
  destruct (Fields.password f); try discriminate; reflexivity.
Qed.

Lemma register_valid f w :
  all_present f = true ->
  is_string (Fields.password f) = true ->
  User.register f w =
  if Db.has_user (text (Fields.username f)) (users w)
  then (inl (DatabaseError "23505"), after_insert_attempt f w)
  else (inr (Some (Db.mkRegistered
                     (text (Fields.username f))
                     (UserRow.password (inserted_row f w))
                     (text (Fields.first_name f)) (text (Fields.last_name f))
                     (text (Fields.phone f)))),
        after_insert f w).
Proof.
  unfold all_present, User.register. intros Hf Hs.
  apply negb_true_iff in Hf. rewrite Hf.
  destruct (Fields.password f) as [| |pw|] eqn:Hpw; try discriminate.
  unfold bind, bcrypt.hash, Db.insert_user, bind, emit, tick,
    current_timestamp, after_insert, after_insert_attempt, inserted_row;
    simpl.
  rewrite Hpw.
  destruct (Db.has_user _ _); simpl; rewrite <- app_assoc; reflexivity.
Qed.

Lemma authenticate_run username password w :
  User.authenticate username password w =
  let w1 := after_select (SelectPassword (pg_param username)) w in
  match find_param (pg_param username) w with
  | None => (inl AuthError, w1)
  | Some r =>
      let w2 := mkWorld (users w) (messages w) (clock w + 1) (seed w)
                  (trace w ++ [EQuery (SelectPassword (pg_param username));
                               ECompare password (UserRow.password r)]) in
      match password with
      | JString p => (inr (bcrypt_compare_fn p (UserRow.password r)), w2)
      | _ => (inl (Error (bcrypt_compare_error password)), w2)
      end
  end.
Proof.
  unfold User.authenticate, bind, Db.select_password, bind, emit, tick,
    after_select; simpl.
  rewrite first_row_map, first_row_param.
  destruct (find_param _ _) as [r|]; simpl; [|reflexivity].
  unfold bcrypt.compare, bind, emit, ret, throw; simpl.
  rewrite <- app_assoc. destruct password; reflexivity.
Qed.
End Runs.

Lemma stamp_username param now r :
  UserRow.username (Db.stamp param now r) = UserRow.username r.
Proof. unfold Db.stamp. destruct (Db.row_matches _ _); reflexivity. Qed.

Lemma stamp_matches param q now r :
  Db.row_matches q (Db.stamp param now r) = Db.row_matches q r.
Proof. destruct q; simpl; [rewrite stamp_username|]; reflexivity. Qed.

Lemma filter_stamp param q now l :
  filter (Db.row_matches q) (map (Db.stamp param now) l)
  = map (Db.stamp param now) (filter (Db.row_matches q) l).
Proof.
  induction l as [|r l IH]; simpl; [reflexivity|].
  rewrite stamp_matches.
  destruct (Db.row_matches q r); simpl; rewrite IH; reflexivity.
Qed.

Lemma find_stamp_any n param now l :
  find (fun r => (UserRow.username r =? n)%string)
       (map (Db.stamp param now) l) =
  option_map (Db.stamp param now)
             (find (fun r => (UserRow.username r =? n)%string) l).
Proof.
  induction l as [|r l IH]; simpl; [reflexivity|].
  rewrite stamp_username.
  destruct (UserRow.username r =? n)%string; [reflexivity | exact IH].
Qed.

Lemma find_param_matches param w r :
  find_param param w = Some r -> Db.row_matches param r = true.
Proof.
  destruct param as [name|]; simpl; [|discriminate].
  intros Hr. apply find_some in Hr. tauto.
Qed.

Lemma updateLoginTimestamp_run username w :
  User.updateLoginTimestamp username w =
  match find_param (pg_param username) w with
  | None => (inl (NotFoundError ("No such user: " ++ show username)),
             after_update (pg_param username) w)
  | Some r => (inr (Db.mkLoginStamp (UserRow.username r) (clock w)),
               after_update (pg_param username) w)
  end.
Proof.
  unfold User.updateLoginTimestamp, bind, Db.update_last_login, bind, emit,
    tick, current_timestamp, after_update; simpl.
  rewrite first_row_map, filter_stamp, first_row_map, first_row_param.
  destruct (find_param _ w) as [r|] eqn:Hr; simpl; [|reflexivity].
  apply find_param_matches in Hr.
  unfold Db.stamp. rewrite Hr. reflexivity.
Qed.

Lemma get_run username w :
  User.get username w =
  let w1 := mkWorld (users w) (messages w) (clock w + 1) (seed w)
                    (trace w ++ [EQuery (SelectUser username)]) in
  match find_user username w with
  | None => (inl (NotFoundError ("No such user: " ++ username)), w1)
  | Some r =>
      (inr (Db.mkProfile (UserRow.username r) (UserRow.first_name r)
              (UserRow.last_name r) (UserRow.phone r) (UserRow.join_at r)
              (UserRow.last_login_at r)), w1)
  end.
Proof.
  unfold User.get, bind, Db.select_user, bind, emit, tick, find_user; simpl.
  rewrite first_row_map, first_row_filter.
  destruct (find _ _); reflexivity.
Qed.

Lemma calls_since_app w w' l :
  trace w' = (trace w ++ l)%list -> calls_since w w' = l.
Proof.
  unfold calls_since. intros ->.
  rewrite skipn_app, skipn_all, Nat.sub_diag. reflexivity.
Qed.

Lemma find_user_fresh name w :
  find_user name w = None <-> Db.has_user name (users w) = false.
Proof.
  unfold find_user. rewrite has_user_find.
  destruct (find _ _); simpl; split; congruence.
Qed.

Lemma find_user_after_insert `{Capabilities} f w :
  Db.has_user (text (Fields.username f)) (users w) = false ->
  find (fun r => (UserRow.username r =? text (Fields.username f))%string)
       (users w ++ [inserted_row f w]) = Some (inserted_row f w).
Proof.
  intros Hfresh.
  rewrite find_app_fresh.
  - simpl. rewrite String.eqb_refl. reflexivity.
  - rewrite has_user_find in Hfresh.
    destruct (find _ (users w)); [discriminate | reflexivity].
Qed.

(** A failed [register] is a validation failure, bcrypt's rejection of a
    password that is not a string, or the database's own unique-violation
    error: the test on [result.code] never fires. *)
Lemma register_failures `{Capabilities} f w e w' :
  User.register f w = (inl e, w') ->
  e = ValidationError
  \/ e = Error (bcrypt_hash_error (Fields.password f))
  \/ e = DatabaseError "23505".
Proof.
  destruct (all_present f) eqn:Hf.
  - destruct (is_string (Fields.password f)) eqn:Hs.
    + rewrite (register_valid _ _ Hf Hs).
      destruct (Db.has_user _ _); intros [= <- _]; auto.
    + rewrite (register_not_string _ _ Hf Hs). intros [= <- _]. auto.
  - rewrite (register_invalid _ _ Hf). intros [= <- _]. auto.
Qed.

(** With every field present and a string password, registering a
    username that is already in the table is rejected by the database and
    writes nothing. *)
Lemma register_existing_username `{Capabilities} f w :
  all_present f = true ->
  is_string (Fields.password f) = true ->
  Db.has_user (text (Fields.username f)) (users w) = true ->
  User.register f w = (inl (DatabaseError "23505"), after_insert_attempt f w).
Proof.
  intros Hf Hs Hu. rewrite (register_valid _ _ Hf Hs), Hu. reflexivity.
Qed.

(** ** The claims *)

(** C1.  Registering the same username twice: the first call succeeds; the
    second call fails, but with the database's raw unique-violation error
    (SQLSTATE 23505), not with the ExpressError "Username alice already
    exists" (status 400) that the code means to raise for a duplicate. *)
Theorem register_twice_second_is_raw_database_error :
  let first := User.register (H:=Toy.capabilities) Toy.alice Toy.empty in
  let second := User.register (H:=Toy.capabilities) Toy.alice (snd first) in
  fst first = inr (Some (Db.mkRegistered "alice" "$2b$wonderland" "Alice"
                                         "Liddell" "555-0100"))
  /\ fst second = inl (DatabaseError "23505")
  /\ fst second <> inl (ConflictError "alice")
  /\ status_of (DatabaseError "23505") <> Some 400
  /\ users (snd second) = users (snd first).
Proof.
  cbv zeta.
  split; [vm_compute; reflexivity|].
  split; [vm_compute; reflexivity|].
  split; [vm_compute; discriminate|].
  split; [discriminate | vm_compute; reflexivity].
Qed.

(** C5.  When at least one of username, password, first_name, last_name,
    phone is missing or empty, [User.register] fails with the
    ValidationError and leaves the world as it was: no row is written and
    no call reaches the database. *)
Theorem register_missing_field_is_validation_error
  {C : Capabilities} (f : Fields.t) (w : World) :
  falsy (Fields.username f) = true \/ falsy (Fields.password f) = true
  \/ falsy (Fields.first_name f) = true \/ falsy (Fields.last_name f) = true
  \/ falsy (Fields.phone f) = true ->
  User.register f w = (inl ValidationError, w).
Proof.
  intros Hf. apply register_invalid. unfold all_present.
  apply negb_false_iff.
  repeat rewrite orb_true_iff. tauto.
Qed.

Lemma register_missing_field_is_validation_error_witness :
  User.register (H:=Toy.capabilities)
    (Fields.mk (JString "alice") (JString "wonderland") JUndefined
               (JString "Liddell") (JString ""))
    Toy.chat
  = (inl ValidationError, Toy.chat).
Proof.
  apply (register_missing_field_is_validation_error (C:=Toy.capabilities)).
  right. right. left. reflexivity.
Defined.





(** What the login route answers when the password is not a string: the
    AuthError for a username no row has, bcrypt's plain Error for a
    username a row has. *)
Lemma login_not_string_password `{Capabilities} u p w :
  is_string p = false ->
  fst (auth.login u p w) =
  match find_param (pg_param u) w with
  | None => inr (Next AuthError)
  | Some _ => inr (Next (Error (bcrypt_compare_error p)))
  end.
Proof.
  intros Hp. unfold auth.login, try_catch, bind.
  rewrite authenticate_run. cbv zeta.
  destruct (find_param (pg_param u) w); [|reflexivity].
  destruct p; try discriminate; reflexivity.
Qed.

(** With string passwords, a login for a username that does not exist and
    a login for an existing username with a password that does not match
    are answered with the same error: message "Invalid
    username/password", status 400. *)
Lemma login_failures_carry_the_same_error
  {C : Capabilities} (u : jsval) (p : string) (w : World)
  (u' : jsval) (p' : string) (w' : World) (r : UserRow.t) :
  find_param (pg_param u) w = None ->
  find_param (pg_param u') w' = Some r ->
  bcrypt_compare_fn p' (UserRow.password r) = false ->
  exists e e',
    fst (auth.login u (JString p) w) = inr (Next e)
    /\ fst (auth.login u' (JString p') w') = inr (Next e')
    /\ e = e'
    /\ message_of e = Some "Invalid username/password"
    /\ status_of e = Some 400.
Proof.
  intros Hnone Hsome Hcmp.
  exists AuthError, AuthError.
  unfold auth.login, try_catch, bind.
  rewrite !authenticate_run; simpl.
  rewrite Hnone, Hsome, Hcmp. simpl.
  repeat split.
Qed.

(** C10.  The login route called without a password tells whether the
    username exists: for the existing username "alice" it answers with
    bcrypt's plain Error (no status), for the unknown username "carol"
    with "Invalid username/password" (400).  Message and status differ,
    although the code gives both of its own failures the same message and
    status. *)
Theorem login_without_password_tells_existing_username :
  let existing :=
    fst (auth.login (H:=Toy.capabilities) (JString "alice") JUndefined
           Toy.chat) in
  let unknown :=
    fst (auth.login (H:=Toy.capabilities) (JString "carol") JUndefined
           Toy.chat) in
  find_user "alice" Toy.chat = Some Toy.alice_row
  /\ find_user "carol" Toy.chat = None
  /\ existing = inr (Next (Error "data and hash arguments required"))
  /\ unknown = inr (Next (ExpressError "Invalid username/password" 400))
  /\ existing <> unknown
  /\ status_of (Error "data and hash arguments required") <> Some 400.
Proof.
  cbv zeta.
  split; [reflexivity|]. split; [reflexivity|].
  split; [reflexivity|]. split; [reflexivity|].
  split; [vm_compute; discriminate | discriminate].
Qed.

(** C4.  Login, given the outcome of [User.authenticate]: when it returned
    true, the route calls [updateLoginTimestamp] and then signs a token
    over the payload carrying the username, and answers with that token;
    when it returned false, the route answers with the AuthError, makes no
    further call and signs no token. *)
Theorem login_follows_authenticate
  {C : Capabilities} (u p : jsval) (w : World) (b : bool) (w1 : World) :
  User.authenticate u p w = (inr b, w1) ->
  if b
  then exists w2,
      auth.login u p w
        = (inr (Json (Some "Logged in!") (jwt_sign_fn u SECRET_KEY)), w2)
      /\ calls_since w1 w2 = [EQuery (UpdateLastLogin (pg_param u)); ESign u]
      /\ users w2 = map (Db.stamp (pg_param u) (clock w1)) (users w1)
  else auth.login u p w = (inr (Next AuthError), w1)
       /\ forall name, ~ In (ESign name) (calls_since w w1).
Proof.
  intros Hauth.
  unfold auth.login, try_catch, bind. rewrite Hauth.
  rewrite authenticate_run in Hauth. cbv zeta in Hauth.
  destruct (find_param (pg_param u) w) as [r|] eqn:Hr; [|discriminate].
  destruct p as [| |p|]; try discriminate.
  injection Hauth as Hb Hw1.
  destruct b.
  - rewrite updateLoginTimestamp_run.
    assert (Hr1 : find_param (pg_param u) w1 = Some r).
    { subst w1. destruct (pg_param u); exact Hr. }
    rewrite Hr1. unfold jwt.sign, bind, emit, ret; simpl.
    eexists. split; [reflexivity|].
    split; [|reflexivity].
    apply calls_since_app. simpl. rewrite <- app_assoc. reflexivity.
  - split; [reflexivity|].
    intros name Hin.
    rewrite (calls_since_app w w1
               [EQuery (SelectPassword (pg_param u));
                ECompare (JString p) (UserRow.password r)])
      in Hin by (subst w1; reflexivity).
    simpl in Hin. destruct Hin as [|[|[]]]; discriminate.
Qed.

Lemma login_follows_authenticate_witness :
  exists w2,
    auth.login (H:=Toy.capabilities) (JString "alice") (JString "wonderland")
      Toy.chat
      = (inr (Json (Some "Logged in!") "alice.secret"), w2)
    /\ calls_since
         (snd (User.authenticate (H:=Toy.capabilities) (JString "alice")
                 (JString "wonderland") Toy.chat)) w2
       = [EQuery (UpdateLastLogin (Some "alice")); ESign (JString "alice")]
    /\ users w2 = map (Db.stamp (Some "alice") 1007) (users Toy.chat).
Proof.
  apply (login_follows_authenticate (C:=Toy.capabilities)
           (JString "alice") (JString "wonderland") Toy.chat true
           (snd (User.authenticate (H:=Toy.capabilities) (JString "alice")
                   (JString "wonderland") Toy.chat))).
  reflexivity.
Defined.

(** C9.  Frame of [User.updateLoginTimestamp] on an existing user: the call
    succeeds; the messages are untouched; the users table keeps its rows,
    every row keeps its username, password hash, first_name, last_name,
    phone and join_at, the rows of other users are unchanged, and the row
    of the user gets the current time as last_login_at. *)
Theorem updateLoginTimestamp_frame
  (u : jsval) (name : string) (w : World) (r : UserRow.t) :
  pg_param u = Some name ->
  find_user name w = Some r ->
  exists st w',
    User.updateLoginTimestamp u w = (inr st, w')
    /\ messages w' = messages w
    /\ Forall2
         (fun old new =>
            UserRow.username new = UserRow.username old
            /\ UserRow.password new = UserRow.password old
            /\ UserRow.first_name new = UserRow.first_name old
            /\ UserRow.last_name new = UserRow.last_name old
            /\ UserRow.phone new = UserRow.phone old
            /\ UserRow.join_at new = UserRow.join_at old
            /\ (UserRow.username old <> name -> new = old)
            /\ (UserRow.username old = name ->
                UserRow.last_login_at new = clock w))
         (users w) (users w').
Proof.
  intros Hu Hr. rewrite updateLoginTimestamp_run, Hu. simpl. rewrite Hr.
  do 2 eexists. split; [reflexivity|].
  split; [reflexivity|].
  unfold after_update; simpl.
  generalize (clock w) as now. intros now.
  induction (users w) as [|x l IH]; simpl; constructor; [|exact IH].
  unfold Db.stamp, Db.row_matches.
  destruct (UserRow.username x =? name)%string eqn:Hx; simpl.
  - apply String.eqb_eq in Hx. repeat split; try reflexivity. congruence.
  - apply String.eqb_neq in Hx. repeat split; try reflexivity. congruence.
Qed.

Lemma updateLoginTimestamp_frame_witness :
  exists st w',
    User.updateLoginTimestamp (JString "bob") Toy.chat = (inr st, w')
    /\ messages w' = messages Toy.chat
    /\ Forall2
         (fun old new =>
            UserRow.username new = UserRow.username old
            /\ UserRow.password new = UserRow.password old
            /\ UserRow.first_name new = UserRow.first_name old
            /\ UserRow.last_name new = UserRow.last_name old
            /\ UserRow.phone new = UserRow.phone old
            /\ UserRow.join_at new = UserRow.join_at old
            /\ (UserRow.username old <> "bob" -> new = old)
            /\ (UserRow.username old = "bob" ->
                UserRow.last_login_at new = clock Toy.chat))
         (users Toy.chat) (users w').
Proof.
  apply (updateLoginTimestamp_frame (JString "bob") "bob" Toy.chat
           Toy.bob_row); reflexivity.
Defined.

(** ** The join of messages with users *)

Lemma filter_absent (k : string) (us : list UserRow.t) :
  ~ In k (map UserRow.username us) ->
  filter (fun u => (k =? UserRow.username u)%string) us = [].
Proof.
  induction us as [|x us IH]; simpl; [reflexivity|].
  intros Hk.
  destruct (k =? UserRow.username x)%string eqn:Hx.
  - apply String.eqb_eq in Hx. exfalso. apply Hk. left. symmetry. exact Hx.
  - apply IH. intros Hin. apply Hk. right. exact Hin.
Qed.

Lemma filter_primary_key (k : string) (us : list UserRow.t) (r : UserRow.t) :
  NoDup (map UserRow.username us) ->
  find (fun u => (UserRow.username u =? k)%string) us = Some r ->
  filter (fun u => (k =? UserRow.username u)%string) us = [r].
Proof.
  induction us as [|x us IH]; simpl; [discriminate|].
  intros Hnd Hfind. inversion Hnd as [|? ? Hx Hnd']; subst.
  rewrite (String.eqb_sym k).
  destruct (UserRow.username x =? k)%string eqn:Hk.
  - injection Hfind as <-. apply String.eqb_eq in Hk. subst k.
    rewrite (filter_absent _ _ Hx). reflexivity.
  - apply IH; assumption.
Qed.

Lemma find_present (k : string) (us : list UserRow.t) :
  In k (map UserRow.username us) ->
  exists r, find (fun u => (UserRow.username u =? k)%string) us = Some r.
Proof.
  intros Hin. apply has_user_In in Hin. rewrite has_user_find in Hin.
  destruct (find _ us) as [r|]; [exists r; reflexivity | discriminate].
Qed.

Lemma filter_present (k : string) (us : list UserRow.t) :
  In k (map UserRow.username us) ->
  filter (fun u => (k =? UserRow.username u)%string) us <> [].
Proof.
  induction us as [|x us IH]; simpl; [tauto|].
  intros [Hx|Hin].
  - subst k. rewrite String.eqb_refl. discriminate.
  - destruct (k =? UserRow.username x)%string; [discriminate | auto].
Qed.

(** Under the foreign key on [on_col], the join is empty exactly when no
    message satisfies the WHERE clause. *)
Lemma joined_rows_nil on_col where_col name ms us :
  Forall (fun m => In (on_col m) (map UserRow.username us)) ms ->
  Db.joined_rows on_col where_col name ms us = []
  <-> filter (fun m => (where_col m =? name)%string) ms = [].
Proof.
  unfold Db.joined_rows.
  induction 1 as [|m ms Hm Hms IH]; simpl; [tauto|].
  destruct (where_col m =? name)%string; [|exact IH].
  split; [|discriminate].
  intros Happ. apply app_eq_nil in Happ. destruct Happ as [Hmap _].
  apply map_eq_nil in Hmap. exfalso. exact (filter_present _ _ Hm Hmap).
Qed.

(** Under the primary key and the foreign key, the join has one row per
    selected message, built from the user the message refers to. *)
Lemma joined_rows_rows on_col where_col name ms us :
  NoDup (map UserRow.username us) ->
  Forall (fun m => In (on_col m) (map UserRow.username us)) ms ->
  Forall2
    (fun m row =>
       exists r, find (fun u => (UserRow.username u =? on_col m)%string) us
                 = Some r
                 /\ row = joined_row on_col m r)
    (filter (fun m => (where_col m =? name)%string) ms)
    (Db.joined_rows on_col where_col name ms us).
Proof.
  intros Hpk. unfold Db.joined_rows.
  induction 1 as [|m ms Hm Hms IH]; simpl; [constructor|].
  destruct (where_col m =? name)%string; [|exact IH].
  destruct (find_present _ _ Hm) as [r Hr].
  rewrite (filter_primary_key _ _ _ Hpk Hr). simpl.
  constructor; [|exact IH].
  exists r. split; [exact Hr | reflexivity].
Qed.

(** The rows in the order the store returns them are related to some
    reordering of the messages. *)
Lemma Forall2_arranged {A B} (R : A -> B -> Prop) (ms : list A)
      (rows rows' : list B) :
  Permutation rows' rows ->
  Forall2 R ms rows ->
  exists ms', Permutation ms' ms /\ Forall2 R ms' rows'.
Proof.
  intros Hperm Hall.
  apply Forall2_flip in Hall.
  destruct (Permutation_Forall2 (Permutation_sym Hperm) Hall)
    as [ms' [Hms' Hall']].
  exists ms'. split; [apply Permutation_sym; exact Hms'|].
  apply Forall2_flip in Hall'. exact Hall'.
Qed.

Lemma missing_first_row {A} (l : list A) :
  missing (first_row l) = match l with [] => true | _ => false end.
Proof. destruct l; reflexivity. Qed.

Lemma arrange_nil `{Capabilities} {R} q w (rows : list R) :
  arrange q w rows = [] <-> rows = [].
Proof.
  pose proof (arrange_permutation R q w rows) as Hp.
  split; intros Hn.
  - rewrite Hn in Hp. apply Permutation_nil. exact Hp.
  - subst rows. apply Permutation_nil. apply Permutation_sym. exact Hp.
Qed.

Section ListRuns.
Context `{Capabilities}.

Lemma all_run w :
  User.all w =
  let w1 := after_select SelectAllUsers w in
  match arrange SelectAllUsers w1 (map PublicProfile.of_row (users w)) with
  | [] => (inl (NotFoundError "No users found"), w1)
  | rows => (inr rows, w1)
  end.
Proof.
  unfold User.all, bind, Db.select_all_users, bind, emit, tick, after_select;
    simpl.
  rewrite missing_first_row.
  match goal with |- context [arrange ?q ?w ?l] => destruct (arrange q w l) end;
    reflexivity.
Qed.

Lemma messagesFrom_run name w :
  User.messagesFrom name w =
  let w1 := after_select (SelectMessagesFrom name) w in
  match arrange (SelectMessagesFrom name) w1
          (Db.joined_rows MessageRow.to_username MessageRow.from_username
             name (messages w) (users w)) with
  | [] => (inl (NotFoundError ("No messages found from: " ++ name)), w1)
  | rows => (inr (map sent_entry rows), w1)
  end.
Proof.
  unfold User.messagesFrom, bind, Db.select_messages_from, bind, emit, tick,
    after_select; simpl.
  rewrite missing_first_row.
  match goal with |- context [arrange ?q ?w ?l] => destruct (arrange q w l) end;
    reflexivity.
Qed.

Lemma messagesTo_run name w :
  User.messagesTo name w =
  let w1 := after_select (SelectMessagesTo name) w in
  match arrange (SelectMessagesTo name) w1
          (Db.joined_rows MessageRow.from_username MessageRow.to_username
             name (messages w) (users w)) with
  | [] => (inl (NotFoundError ("No messages found to: " ++ name)), w1)
  | rows => (inr (map received_entry rows), w1)
  end.
Proof.
  unfold User.messagesTo, bind, Db.select_messages_to, bind, emit, tick,
    after_select; simpl.
  rewrite missing_first_row.
  match goal with |- context [arrange ?q ?w ?l] => destruct (arrange q w l) end;
    reflexivity.
Qed.
End ListRuns.

Lemma foreign_keys_to w :
  foreign_keys w ->
  Forall (fun m => In (MessageRow.to_username m)
                      (map UserRow.username (users w))) (messages w).
Proof. apply Forall_impl. tauto. Qed.

Lemma foreign_keys_from w :
  foreign_keys w ->
  Forall (fun m => In (MessageRow.from_username m)
                      (map UserRow.username (users w))) (messages w).
Proof. apply Forall_impl. tauto. Qed.

Lemma toy_chat_integrity : integrity Toy.chat.
Proof.
  split.
  - unfold primary_key; simpl. repeat constructor; simpl.
    + intros [H|[]]; discriminate.
    + tauto.
  - unfold foreign_keys; simpl. repeat constructor; simpl; tauto.
Defined.

(** C6.  With the foreign keys of [messages] in force, each list operation
    fails with its NotFoundError exactly when its result set is empty:
    [User.all] when the users table is empty, [User.messagesFrom u] when no
    message has [u] as sender, [User.messagesTo u] when no message has [u]
    as recipient; otherwise each returns a list. *)
Theorem list_operations_fail_exactly_when_empty
  {C : Capabilities} (w : World) (u : string) :
  foreign_keys w ->
  (users w = []
   <-> fst (User.all w) = inl (NotFoundError "No users found"))
  /\ (users w <> [] -> exists l, fst (User.all w) = inr l)
  /\ (sent_by u w = []
      <-> fst (User.messagesFrom u w)
          = inl (NotFoundError ("No messages found from: " ++ u)))
  /\ (sent_by u w <> [] -> exists l, fst (User.messagesFrom u w) = inr l)
  /\ (received_by u w = []
      <-> fst (User.messagesTo u w)
          = inl (NotFoundError ("No messages found to: " ++ u)))
  /\ (received_by u w <> [] -> exists l, fst (User.messagesTo u w) = inr l).
Proof.
  intros Hfk.
  pose proof (joined_rows_nil MessageRow.to_username
                MessageRow.from_username u _ _ (foreign_keys_to w Hfk))
    as Hfrom.
  pose proof (joined_rows_nil MessageRow.from_username
                MessageRow.to_username u _ _ (foreign_keys_from w Hfk))
    as Hto.
  fold (sent_by u w) in Hfrom. fold (received_by u w) in Hto.
  rewrite all_run, messagesFrom_run, messagesTo_run. cbv zeta.
  rewrite <- (arrange_nil (SelectMessagesFrom u)
                (after_select (SelectMessagesFrom u) w)) in Hfrom.
  rewrite <- (arrange_nil (SelectMessagesTo u)
                (after_select (SelectMessagesTo u) w)) in Hto.
  assert (Hall : arrange SelectAllUsers (after_select SelectAllUsers w)
                   (map PublicProfile.of_row (users w)) = []
                 <-> users w = []).
  { rewrite arrange_nil. split; [apply map_eq_nil | intros ->; reflexivity]. }
  set (ja := arrange SelectAllUsers _ _) in *.
  set (jf := arrange (SelectMessagesFrom u) _ _) in *.
  set (jt := arrange (SelectMessagesTo u) _ _) in *.
  clearbody ja jf jt.
  repeat split.
  - intros He. apply Hall in He. rewrite He. reflexivity.
  - intros Hr. apply Hall. destruct ja; [reflexivity | discriminate].
  - intros Hne.
    destruct ja as [|x l];
      [exfalso; apply Hne, Hall; reflexivity | eexists; reflexivity].
  - intros He. apply Hfrom in He. rewrite He. reflexivity.
  - intros Hr. apply Hfrom. destruct jf; [reflexivity | discriminate].
  - intros Hne.
    destruct jf as [|x l];
      [exfalso; apply Hne, Hfrom; reflexivity | eexists; reflexivity].
  - intros He. apply Hto in He. rewrite He. reflexivity.
  - intros Hr. apply Hto. destruct jt; [reflexivity | discriminate].
  - intros Hne.
    destruct jt as [|x l];
      [exfalso; apply Hne, Hto; reflexivity | eexists; reflexivity].
Qed.

Lemma list_operations_fail_exactly_when_empty_witness :
  foreign_keys Toy.chat
  /\ (exists l, fst (User.all (H:=Toy.capabilities) Toy.chat) = inr l)
  /\ (exists l, fst (User.messagesFrom (H:=Toy.capabilities) "alice" Toy.chat)
                = inr l)
  /\ (exists l, fst (User.messagesTo (H:=Toy.capabilities) "alice" Toy.chat)
                = inr l)
  /\ fst (User.messagesFrom (H:=Toy.capabilities) "carol" Toy.chat)
     = inl (NotFoundError "No messages found from: carol")
  /\ fst (User.messagesTo (H:=Toy.capabilities) "carol" Toy.chat)
     = inl (NotFoundError "No messages found to: carol").
Proof.
  pose proof (proj2 toy_chat_integrity) as Hfk.
  destruct (list_operations_fail_exactly_when_empty (C:=Toy.capabilities)
              Toy.chat "alice" Hfk)
    as (_ & Hall & _ & Hfrom & _ & Hto).
  destruct (list_operations_fail_exactly_when_empty (C:=Toy.capabilities)
              Toy.chat "carol" Hfk)
    as (_ & _ & Hfrom' & _ & Hto' & _).
  split; [exact Hfk|].
  split; [apply Hall; discriminate|].
  split; [apply Hfrom; discriminate|].
  split; [apply Hto; discriminate|].
  split; [apply Hfrom'; reflexivity | apply Hto'; reflexivity].
Defined.

Lemma sent_entries_view w ms rows :
  Forall2
    (fun m row =>
       exists r, find (fun u => (UserRow.username u
                                 =? MessageRow.to_username m)%string)
                      (users w) = Some r
                 /\ row = joined_row MessageRow.to_username m r)
    ms rows ->
  Forall2 (sent_view w) ms (map sent_entry rows).
Proof.
  induction 1 as [|m row ms rows [r [Hr ->]] _ IH]; simpl; constructor;
    [|exact IH].
  unfold sent_view; simpl. repeat split.
  exists r. split; [exact Hr|].
  apply find_some in Hr. destruct Hr as [_ Hr].
  apply String.eqb_eq in Hr. unfold PublicProfile.of_row.
  rewrite Hr. reflexivity.
Qed.

Lemma received_entries_view w ms rows :
  Forall2
    (fun m row =>
       exists r, find (fun u => (UserRow.username u
                                 =? MessageRow.from_username m)%string)
                      (users w) = Some r
                 /\ row = joined_row MessageRow.from_username m r)
    ms rows ->
  Forall2 (received_view w) ms (map received_entry rows).
Proof.
  induction 1 as [|m row ms rows [r [Hr ->]] _ IH]; simpl; constructor;
    [|exact IH].
  unfold received_view; simpl. repeat split.
  exists r. split; [exact Hr|].
  apply find_some in Hr. destruct Hr as [_ Hr].
  apply String.eqb_eq in Hr. unfold PublicProfile.of_row.
  rewrite Hr. reflexivity.
Qed.

(** C7.  With the primary key of [users] and the foreign keys of
    [messages] in force: for a user A with at least one sent message,
    [User.messagesFrom A] returns one entry for each message whose
    from_username is A and nothing else, in the order the store returns
    the rows, each entry carrying the message's id, body, sent_at, read_at
    and the public profile of the recipient; symmetrically
    [User.messagesTo B] for the messages whose to_username is B, with the
    sender's public profile. *)
Theorem messages_from_and_to_list_exactly_with_counterpart
  {C : Capabilities} (w : World) (a b : string) :
  integrity w ->
  (sent_by a w <> [] ->
   exists out ms,
     fst (User.messagesFrom a w) = inr out
     /\ Permutation ms (sent_by a w)
     /\ Forall2 (sent_view w) ms out)
  /\ (received_by b w <> [] ->
      exists out ms,
        fst (User.messagesTo b w) = inr out
        /\ Permutation ms (received_by b w)
        /\ Forall2 (received_view w) ms out).
Proof.
  intros [Hpk Hfk]. split; intros Hne.
  - pose proof (joined_rows_rows MessageRow.to_username
                  MessageRow.from_username a _ _ Hpk (foreign_keys_to w Hfk))
      as Hrows.
    fold (sent_by a w) in Hrows.
    destruct (Forall2_arranged _ _ _ _
                (arrange_permutation _ (SelectMessagesFrom a)
                   (after_select (SelectMessagesFrom a) w) _) Hrows)
      as [ms [Hperm Hall]].
    rewrite messagesFrom_run. cbv zeta.
    destruct (arrange _ _ _) as [|x l] eqn:Hj.
    + inversion Hall; subst. apply Permutation_nil in Hperm. congruence.
    + exists (map sent_entry (x :: l)), ms.
      split; [reflexivity|]. split; [exact Hperm|].
      apply sent_entries_view. exact Hall.
  - pose proof (joined_rows_rows MessageRow.from_username
                  MessageRow.to_username b _ _ Hpk (foreign_keys_from w Hfk))
      as Hrows.
    fold (received_by b w) in Hrows.
    destruct (Forall2_arranged _ _ _ _
                (arrange_permutation _ (SelectMessagesTo b)
                   (after_select (SelectMessagesTo b) w) _) Hrows)
      as [ms [Hperm Hall]].
    rewrite messagesTo_run. cbv zeta.
    destruct (arrange _ _ _) as [|x l] eqn:Hj.
    + inversion Hall; subst. apply Permutation_nil in Hperm. congruence.
    + exists (map received_entry (x :: l)), ms.
      split; [reflexivity|]. split; [exact Hperm|].
      apply received_entries_view. exact Hall.
Qed.

Lemma messages_from_and_to_list_exactly_with_counterpart_witness :
  integrity Toy.chat
  /\ (exists out ms,
         fst (User.messagesFrom (H:=Toy.capabilities) "alice" Toy.chat)
         = inr out
         /\ Permutation ms (sent_by "alice" Toy.chat)
         /\ Forall2 (sent_view Toy.chat) ms out)
  /\ (exists out ms,
         fst (User.messagesTo (H:=Toy.capabilities) "bob" Toy.chat) = inr out
         /\ Permutation ms (received_by "bob" Toy.chat)
         /\ Forall2 (received_view Toy.chat) ms out).
Proof.
  destruct (messages_from_and_to_list_exactly_with_counterpart
              (C:=Toy.capabilities) Toy.chat "alice" "bob" toy_chat_integrity)
    as [Hfrom Hto].
  split; [exact toy_chat_integrity|].
  split; [apply Hfrom; discriminate | apply Hto; discriminate].
Defined.

Lemma find_param_after_insert `{Capabilities} f w :
  all_present f = true ->
  Db.has_user (text (Fields.username f)) (users w) = false ->
  find_param (pg_param (Fields.username f)) (after_insert f w)
  = Some (inserted_row f w).
Proof.
  intros Hf Hfresh.
  destruct (all_present_fields f Hf) as (Hu & _).
  rewrite (falsy_text _ Hu). simpl.
  apply find_user_after_insert. exact Hfresh.
Qed.

(** C2, as stated, fails: in a successful registration the token is signed
    before [updateLoginTimestamp] is called, so the UPDATE statement does
    not come before the signing. *)
Lemma register_route_update_not_before_sign :
  let run := auth.register (H:=Toy.capabilities) Toy.alice Toy.empty in
  fst run = inr (Json None "alice.secret")
  /\ ~ happens_before (EQuery (UpdateLastLogin (Some "alice")))
                      (ESign (JString "alice"))
                      (calls_since Toy.empty (snd run)).
Proof.
  cbv zeta. split; [vm_compute; reflexivity|].
  intros (i & j & Hi & Hj & Hlt).
  vm_compute in Hi, Hj.
  injection Hi as <-. injection Hj as <-. lia.
Qed.

(** C2, amended.  The register route first calls [User.register].  When
    that fails, the failure is handed to the caller unchanged and nothing
    else is called.  When it succeeds (it made the hash and the INSERT),
    the route signs the token over the submitted username, then calls
    [updateLoginTimestamp], and only after that answers with the token. *)
Theorem register_route_order
  {C : Capabilities} (body : Fields.t) (w : World)
  (r : exn + option Db.registered) (w1 : World) :
  User.register body w = (r, w1) ->
  match r with
  | inl e => auth.register body w = (inr (Next e), w1)
  | inr _ =>
      exists w2,
        auth.register body w
          = (inr (Json None (jwt_sign_fn (Fields.username body) SECRET_KEY)),
             w2)
        /\ calls_since w w1
           = [EHash (Fields.password body);
              EQuery (InsertUser (text (Fields.username body)))]
        /\ calls_since w1 w2
           = [ESign (Fields.username body);
              EQuery (UpdateLastLogin (pg_param (Fields.username body)))]
  end.
Proof.
  intros Hreg.
  unfold auth.register, try_catch, bind. rewrite Hreg.
  destruct r as [e|row]; [reflexivity|].
  destruct (all_present body) eqn:Hf.
  2:{ rewrite (register_invalid _ _ Hf) in Hreg. discriminate. }
  destruct (is_string (Fields.password body)) eqn:Hs.
  2:{ rewrite (register_not_string _ _ Hf Hs) in Hreg. discriminate. }
  rewrite (register_valid _ _ Hf Hs) in Hreg.
  destruct (Db.has_user _ (users w)) eqn:Hfresh; [discriminate|].
  injection Hreg as _ Hw1. subst w1.
  unfold jwt.sign, bind, emit, ret.
  rewrite updateLoginTimestamp_run.
  pose proof (find_param_after_insert body w Hf Hfresh) as Hfind.
  destruct (pg_param (Fields.username body)) as [name|] eqn:Hn;
    [|discriminate].
  simpl in *. unfold find_user in *. simpl in *. rewrite Hfind.
  eexists. split; [reflexivity|].
  split; apply calls_since_app; simpl.
  - reflexivity.
  - rewrite <- app_assoc. reflexivity.
Qed.

Lemma register_route_order_witness :
  exists w2,
    auth.register (H:=Toy.capabilities) Toy.alice Toy.empty
      = (inr (Json None "alice.secret"), w2)
    /\ calls_since Toy.empty
         (snd (User.register (H:=Toy.capabilities) Toy.alice Toy.empty))
       = [EHash (JString "wonderland"); EQuery (InsertUser "alice")]
    /\ calls_since
         (snd (User.register (H:=Toy.capabilities) Toy.alice Toy.empty)) w2
       = [ESign (JString "alice"); EQuery (UpdateLastLogin (Some "alice"))].
Proof.
  apply (register_route_order (C:=Toy.capabilities) Toy.alice Toy.empty
           (fst (User.register (H:=Toy.capabilities) Toy.alice Toy.empty))
           (snd (User.register (H:=Toy.capabilities) Toy.alice Toy.empty))).
  reflexivity.
Defined.

(** ** The constraints are invariants of the operations *)

Lemma NoDup_snoc {A} (l : list A) (a : A) :
  NoDup l -> ~ In a l -> NoDup (l ++ [a]).
Proof.
  induction 1 as [|x l Hx Hl IH]; simpl; intros Ha.
  - constructor; [tauto | constructor].
  - constructor.
    + rewrite in_app_iff. simpl. intros [Hin|[Heq|[]]]; [tauto|].
      apply Ha. left. symmetry. exact Heq.
    + apply IH. tauto.
Qed.

Lemma register_preserves_integrity `{Capabilities} f w :
  integrity w -> integrity (snd (User.register f w)).
Proof.
  intros [Hpk Hfk].
  destruct (all_present f) eqn:Hf.
  2:{ rewrite (register_invalid _ _ Hf). split; assumption. }
  destruct (is_string (Fields.password f)) eqn:Hs.
  2:{ rewrite (register_not_string _ _ Hf Hs). split; assumption. }
  rewrite (register_valid _ _ Hf Hs).
  destruct (Db.has_user _ (users w)) eqn:Hfresh; [split; assumption|].
  unfold integrity, primary_key, foreign_keys in *; simpl.
  rewrite map_app; simpl. split.
  - apply NoDup_snoc; [exact Hpk|].
    intros Hin. apply has_user_In in Hin. congruence.
  - eapply Forall_impl; [|exact Hfk].
    intros m [H1 H2]. split; apply in_or_app; left; assumption.
Qed.

Lemma stamp_usernames param now l :
  map UserRow.username (map (Db.stamp param now) l) = map UserRow.username l.
Proof. rewrite map_map. apply map_ext. intros r. apply stamp_username. Qed.

Lemma updateLoginTimestamp_world u w :
  snd (User.updateLoginTimestamp u w) = after_update (pg_param u) w.
Proof.
  rewrite updateLoginTimestamp_run.
  destruct (find_param (pg_param u) w); reflexivity.
Qed.

Lemma integrity_same_usernames w w' :
  map UserRow.username (users w') = map UserRow.username (users w) ->
  messages w' = messages w ->
  integrity w -> integrity w'.
Proof.
  unfold integrity, primary_key, foreign_keys.
  intros -> ->. tauto.
Qed.

Lemma updateLoginTimestamp_preserves_integrity u w :
  integrity w -> integrity (snd (User.updateLoginTimestamp u w)).
Proof.
  intros Hw. rewrite updateLoginTimestamp_world.
  apply (integrity_same_usernames w); [|reflexivity|exact Hw].
  apply stamp_usernames.
Qed.

(** * Further properties of the user store and of the two routes *)

(** ** What the two routes compute *)

Lemma login_run `{Capabilities} u p w :
  auth.login u p w =
  match find_param (pg_param u) w with
  | None =>
      (inr (Next AuthError), after_select (SelectPassword (pg_param u)) w)
  | Some r =>
      let w2 := mkWorld (users w) (messages w) (clock w + 1) (seed w)
                  (trace w ++ [EQuery (SelectPassword (pg_param u));
                               ECompare p (UserRow.password r)]) in
      match p with
      | JString s =>
          if bcrypt_compare_fn s (UserRow.password r)
          then (inr (Json (Some "Logged in!") (jwt_sign_fn u SECRET_KEY)),
                mkWorld (map (Db.stamp (pg_param u) (clock w + 1)) (users w))
                        (messages w) (clock w + 1 + 1) (seed w)
                        (trace w ++ [EQuery (SelectPassword (pg_param u));
                                     ECompare p (UserRow.password r);
                                     EQuery (UpdateLastLogin (pg_param u));
                                     ESign u]))
          else (inr (Next AuthError), w2)
      | _ => (inr (Next (Error (bcrypt_compare_error p))), w2)
      end
  end.
Proof.
  unfold auth.login, try_catch, bind.
  rewrite authenticate_run. cbv zeta.
  destruct (find_param (pg_param u) w) as [r|] eqn:Hr; [|reflexivity].
  destruct p as [| |s|]; try reflexivity.
  destruct (bcrypt_compare_fn s (UserRow.password r)); [|reflexivity].
  rewrite updateLoginTimestamp_run.
  assert (Hr' : find_param (pg_param u)
                  (mkWorld (users w) (messages w) (clock w + 1) (seed w)
                     (trace w ++ [EQuery (SelectPassword (pg_param u));
                                  ECompare (JString s) (UserRow.password r)]))
                = Some r).
  { destruct (pg_param u); exact Hr. }
  rewrite Hr'.
  unfold jwt.sign, bind, emit, ret, after_update; simpl.
  rewrite <- !app_assoc. reflexivity.
Qed.

Lemma register_route_run `{Capabilities} f w :
  auth.register f w =
  if all_present f
  then if is_string (Fields.password f)
       then if Db.has_user (text (Fields.username f)) (users w)
            then (inr (Next (DatabaseError "23505")),
                  after_insert_attempt f w)
            else (inr (Json None (jwt_sign_fn (Fields.username f)
                                              SECRET_KEY)),
                  mkWorld (map (Db.stamp (pg_param (Fields.username f))
                                         (clock w + 1))
                               (users w ++ [inserted_row f w]))
                          (messages w) (clock w + 1 + 1) (S (seed w))
                          (trace w ++
                             [EHash (Fields.password f);
                              EQuery (InsertUser (text (Fields.username f)));
                              ESign (Fields.username f);
                              EQuery (UpdateLastLogin
                                        (pg_param (Fields.username f)))]))
       else (inr (Next (Error (bcrypt_hash_error (Fields.password f)))),
             after_hash_rejected f w)
  else (inr (Next ValidationError), w).
Proof.
  unfold auth.register, try_catch, bind.
  destruct (all_present f) eqn:Hf.
  2:{ rewrite (register_invalid _ _ Hf). reflexivity. }
  destruct (is_string (Fields.password f)) eqn:Hs.
  2:{ rewrite (register_not_string _ _ Hf Hs). reflexivity. }
  rewrite (register_valid _ _ Hf Hs).
  destruct (Db.has_user _ (users w)) eqn:Hfresh; [reflexivity|].
  unfold jwt.sign, bind, emit, ret.
  rewrite updateLoginTimestamp_run.
  pose proof (find_param_after_insert f w Hf Hfresh) as Hfind.
  destruct (pg_param (Fields.username f)) as [name|] eqn:Hn; [|discriminate].
  simpl in *. unfold find_user in *. simpl in *. rewrite Hfind.
  unfold after_update; simpl. rewrite <- !app_assoc. reflexivity.
Qed.

Lemma stamp_absent param now w :
  find_param param w = None ->
  map (Db.stamp param now) (users w) = users w.
Proof.
  destruct param as [name|]; simpl.
  - unfold find_user. induction (users w) as [|r l IH]; simpl;
      [reflexivity|].
    unfold Db.stamp at 1. simpl.
    destruct (UserRow.username r =? name)%string; [discriminate|].
    intros Hl. rewrite (IH Hl). reflexivity.
  - intros _. induction (users w) as [|r l IH]; simpl; [reflexivity|].
    rewrite IH. reflexivity.
Qed.

(** ** [User.register]: what a call writes *)

(** X1.  A call of [User.register] that fails, for whatever reason, writes
    nothing: the users and the messages tables are as before. *)
Theorem register_failure_writes_nothing
  {C : Capabilities} (f : Fields.t) (w : World) (e : exn) (w1 : World) :
  User.register f w = (inl e, w1) ->
  same_tables w w1.
Proof.
  destruct (all_present f) eqn:Hf.
  - destruct (is_string (Fields.password f)) eqn:Hs.
    + rewrite (register_valid _ _ Hf Hs).
      destruct (Db.has_user _ (users w)); [|discriminate].
      intros [= _ <-]. split; reflexivity.
    + rewrite (register_not_string _ _ Hf Hs).
      intros [= _ <-]. split; reflexivity.
  - rewrite (register_invalid _ _ Hf). intros [= _ <-]. split; reflexivity.
Qed.

Lemma register_failure_writes_nothing_witness :
  same_tables Toy.chat
    (snd (User.register (H:=Toy.capabilities) Toy.alice Toy.chat)).
Proof.
  apply (register_failure_writes_nothing (C:=Toy.capabilities)
           Toy.alice Toy.chat (DatabaseError "23505")).
  reflexivity.
Defined.

(** X2.  A call of [User.register] that succeeds appended exactly one row
    to the users table and left the older rows and the messages alone.  The
    password submitted was a string, and the row holds its bcrypt hash
    under BCRYPT_WORK_FACTOR; it holds the submitted username, first_name,
    last_name and phone (as the database client sends them: a string as
    it is), and one and the same time as join_at and last_login_at; the
    value returned is that row's username, password hash, first_name,
    last_name and phone. *)
Theorem register_success_appends_one_row
  {C : Capabilities} (f : Fields.t) (w : World)
  (r : option Db.registered) (w1 : World) :
  User.register f w = (inr r, w1) ->
  exists row pw,
    users w1 = (users w ++ [row])%list
    /\ messages w1 = messages w
    /\ pg_param (Fields.username f) = Some (UserRow.username row)
    /\ Fields.password f = JString pw
    /\ UserRow.password row = bcrypt_hash_fn pw BCRYPT_WORK_FACTOR (seed w)
    /\ pg_param (Fields.first_name f) = Some (UserRow.first_name row)
    /\ pg_param (Fields.last_name f) = Some (UserRow.last_name row)
    /\ pg_param (Fields.phone f) = Some (UserRow.phone row)
    /\ UserRow.join_at row = UserRow.last_login_at row
    /\ r = Some (Db.mkRegistered (UserRow.username row) (UserRow.password row)
                   (UserRow.first_name row) (UserRow.last_name row)
                   (UserRow.phone row)).
Proof.
  destruct (all_present f) eqn:Hf.
  2:{ rewrite (register_invalid _ _ Hf). discriminate. }
  destruct (is_string (Fields.password f)) eqn:Hs.
  2:{ rewrite (register_not_string _ _ Hf Hs). discriminate. }
  rewrite (register_valid _ _ Hf Hs).
  destruct (Db.has_user _ (users w)); [discriminate|].
  intros [= <- <-].
  destruct (all_present_fields f Hf) as (Hu & Hp & Hfn & Hln & Hph).
  exists (inserted_row f w), (text (Fields.password f)). simpl.
  repeat split; try reflexivity; try (apply falsy_text; assumption).
  destruct (Fields.password f); try discriminate. reflexivity.
Qed.

Lemma register_success_appends_one_row_witness :
  exists row pw,
    users (snd (User.register (H:=Toy.capabilities) Toy.bob Toy.empty))
    = (users Toy.empty ++ [row])%list
    /\ messages (snd (User.register (H:=Toy.capabilities) Toy.bob Toy.empty))
       = messages Toy.empty
    /\ pg_param (Fields.username Toy.bob) = Some (UserRow.username row)
    /\ Fields.password Toy.bob = JString pw
    /\ UserRow.password row = Toy.hash pw 12 (seed Toy.empty)
    /\ pg_param (Fields.first_name Toy.bob) = Some (UserRow.first_name row)
    /\ pg_param (Fields.last_name Toy.bob) = Some (UserRow.last_name row)
    /\ pg_param (Fields.phone Toy.bob) = Some (UserRow.phone row)
    /\ UserRow.join_at row = UserRow.last_login_at row
    /\ fst (User.register (H:=Toy.capabilities) Toy.bob Toy.empty)
       = inr (Some (Db.mkRegistered (UserRow.username row)
                      (UserRow.password row) (UserRow.first_name row)
                      (UserRow.last_name row) (UserRow.phone row))).
Proof.
  destruct (register_success_appends_one_row (C:=Toy.capabilities)
              Toy.bob Toy.empty
              (Some (Db.mkRegistered "bob" "$2b$builder" "Bob" "Mason"
                                     "555-0101"))
              (snd (User.register (H:=Toy.capabilities) Toy.bob Toy.empty))
              eq_refl)
    as (row & pw & H1 & H2 & H3 & H4 & H5 & H6 & H7 & H8 & H9 & H10).
  exists row, pw.
  repeat (split; [assumption|]).
  rewrite <- H10. reflexivity.
Defined.

(** ** Registration followed by authentication *)

Lemma find_user_after_register `{Capabilities} f w r w1 :
  User.register f w = (inr r, w1) ->
  find_user (text (Fields.username f)) w1 = Some (inserted_row f w)
  /\ all_present f = true
  /\ is_string (Fields.password f) = true.
Proof.
  destruct (all_present f) eqn:Hf.
  2:{ rewrite (register_invalid _ _ Hf). discriminate. }
  destruct (is_string (Fields.password f)) eqn:Hs.
  2:{ rewrite (register_not_string _ _ Hf Hs). discriminate. }
  rewrite (register_valid _ _ Hf Hs).
  destruct (Db.has_user _ (users w)) eqn:Hfresh; [discriminate|].
  intros [= _ <-]. split; [|split; reflexivity].
  unfold find_user; simpl. apply find_user_after_insert. exact Hfresh.
Qed.

(** X3.  When bcrypt accepts the hashes it makes, a user who has just been
    registered authenticates with the username and password that were
    submitted: [User.authenticate] returns true. *)
Theorem register_then_authenticate_accepts
  {C : Capabilities} (f : Fields.t) (w : World)
  (r : option Db.registered) (w1 : World) (u pw : string) :
  compare_accepts_hash ->
  User.register f w = (inr r, w1) ->
  Fields.username f = JString u ->
  Fields.password f = JString pw ->
  fst (User.authenticate (JString u) (JString pw) w1) = inr true.
Proof.
  intros Hok Hreg Hu Hpw.
  destruct (find_user_after_register f w r w1 Hreg) as [Hfind _].
  rewrite Hu in Hfind. simpl in Hfind.
  rewrite authenticate_run. cbv zeta. simpl. rewrite Hfind. simpl.
  rewrite Hpw. simpl. rewrite Hok. reflexivity.
Qed.

Lemma toy_compare_accepts_hash :
  compare_accepts_hash (H:=Toy.capabilities).
Proof.
  intros data rounds seed. simpl. unfold Toy.compare, Toy.hash.
  apply String.eqb_refl.
Defined.

Lemma register_then_authenticate_accepts_witness :
  fst (User.authenticate (H:=Toy.capabilities) (JString "bob")
         (JString "builder")
         (snd (User.register (H:=Toy.capabilities) Toy.bob Toy.empty)))
  = inr true.
Proof.
  apply (register_then_authenticate_accepts (C:=Toy.capabilities)
           Toy.bob Toy.empty
           (Some (Db.mkRegistered "bob" "$2b$builder" "Bob" "Mason"
                                  "555-0101"))
           (snd (User.register (H:=Toy.capabilities) Toy.bob Toy.empty))
           "bob" "builder" toy_compare_accepts_hash);
    reflexivity.
Defined.

(** X4.  When bcrypt accepts the hashes it makes: after the register route
    answered with a token, the login route called with the same username
    and password answers "Logged in!" with a token. *)
Theorem register_route_then_login_route
  {C : Capabilities} (f : Fields.t) (w : World) (tok u pw : string) :
  compare_accepts_hash ->
  fst (auth.register f w) = inr (Json None tok) ->
  Fields.username f = JString u ->
  Fields.password f = JString pw ->
  exists tok',
    fst (auth.login (JString u) (JString pw) (snd (auth.register f w)))
    = inr (Json (Some "Logged in!") tok').
Proof.
  intros Hok Hreg Hu Hpw.
  rewrite register_route_run in *.
  destruct (all_present f) eqn:Hf; [|discriminate].
  destruct (is_string (Fields.password f)) eqn:Hs; [|discriminate].
  destruct (Db.has_user _ (users w)) eqn:Hfresh; [discriminate|].
  pose proof (find_user_after_insert f w Hfresh) as Hfind.
  rewrite login_run. simpl. unfold find_user. simpl.
  rewrite Hu in *. simpl in *.
  rewrite find_stamp_any, Hfind. simpl.
  unfold Db.stamp, inserted_row; simpl. rewrite Hu; simpl.
  rewrite String.eqb_refl; simpl. rewrite Hpw; simpl. rewrite Hok.
  eexists. reflexivity.
Qed.

Lemma register_route_then_login_route_witness :
  exists tok',
    fst (auth.login (H:=Toy.capabilities) (JString "bob") (JString "builder")
           (snd (auth.register (H:=Toy.capabilities) Toy.bob Toy.empty)))
    = inr (Json (Some "Logged in!") tok').
Proof.
  apply (register_route_then_login_route (C:=Toy.capabilities)
           Toy.bob Toy.empty "bob.secret" "bob" "builder"
           toy_compare_accepts_hash);
    reflexivity.
Defined.

(** ** The answers of the two routes *)

(** X5.  The login route has three answers.  For a username no row has,
    and for a string password that bcrypt does not accept against the
    stored hash, it answers with the error "Invalid username/password"
    (400).  For a username a row has and a password that is not a string
    (absent, for one), it answers with bcrypt's plain Error.  For a
    username a row has and a string password bcrypt accepts, it answers
    "Logged in!" with the token signed over the username.  The "No such
    user" failure of [updateLoginTimestamp] never reaches the caller of
    login. *)
Theorem login_answers
  {C : Capabilities} (u p : jsval) (w : World) :
  fst (auth.login u p w) =
  match find_param (pg_param u) w with
  | None => inr (Next AuthError)
  | Some r =>
      match p with
      | JString s =>
          if bcrypt_compare_fn s (UserRow.password r)
          then inr (Json (Some "Logged in!") (jwt_sign_fn u SECRET_KEY))
          else inr (Next AuthError)
      | _ => inr (Next (Error (bcrypt_compare_error p)))
      end
  end.
Proof.
  rewrite login_run. cbv zeta.
  destruct (find_param (pg_param u) w) as [r|]; [|reflexivity].
  destruct p as [| |s|]; try reflexivity.
  destruct (bcrypt_compare_fn s (UserRow.password r)); reflexivity.
Qed.

(** X6.  What the login route may change.  The messages are never
    touched.  No account appears or disappears: looked up by username,
    every account is found afterwards exactly when it was found before,
    with the same username, password hash, names, phone and join_at, and
    an account the login was not for is identical; so at most the
    last_login_at of the user who logs in changes.  When the route answers
    with an error, the users table is unchanged. *)
Theorem login_changes_at_most_last_login
  {C : Capabilities} (u p : jsval) (w : World) :
  messages (snd (auth.login u p w)) = messages w
  /\ (forall n,
        match find_user n w with
        | None => find_user n (snd (auth.login u p w)) = None
        | Some r =>
            exists r', find_user n (snd (auth.login u p w)) = Some r'
                       /\ same_but_last_login (pg_param u) r r'
        end)
  /\ forall e, fst (auth.login u p w) = inr (Next e) ->
               users (snd (auth.login u p w)) = users w.
Proof.
  assert (Hrefl : forall r, same_but_last_login (pg_param u) r r).
  { intros r. unfold same_but_last_login. repeat split; reflexivity. }
  assert (Hsame : forall n,
             match find_user n w with
             | None => find_user n w = None
             | Some r => exists r', find_user n w = Some r'
                                    /\ same_but_last_login (pg_param u) r r'
             end).
  { intros n. destruct (find_user n w) as [r|]; [|reflexivity].
    exists r. split; [reflexivity | apply Hrefl]. }
  rewrite login_run. cbv zeta.
  destruct (find_param (pg_param u) w) as [r|];
    [|split; [reflexivity | split; [exact Hsame | reflexivity]]].
  destruct p as [| |s|];
    try (split; [reflexivity | split; [exact Hsame | reflexivity]]).
  destruct (bcrypt_compare_fn s (UserRow.password r));
    [|split; [reflexivity | split; [exact Hsame | reflexivity]]].
  split; [reflexivity|]. split; [|intros e; discriminate].
  intros n. unfold find_user. simpl. rewrite find_stamp_any.
  destruct (find _ (users w)) as [x|]; simpl; [|reflexivity].
  eexists. split; [reflexivity|].
  unfold same_but_last_login, Db.stamp.
  destruct (Db.row_matches (pg_param u) x); simpl;
    repeat split; try reflexivity; discriminate.
Qed.

Lemma login_changes_at_most_last_login_witness :
  users (snd (auth.login (H:=Toy.capabilities) (JString "alice")
                (JString "rabbit") Toy.chat))
  = users Toy.chat.
Proof.
  destruct (login_changes_at_most_last_login (C:=Toy.capabilities)
              (JString "alice") (JString "rabbit") Toy.chat)
    as (_ & _ & Herr).
  apply (Herr AuthError). reflexivity.
Defined.

(** X7.  The register route answers with a token exactly when the five
    fields pass the presence test, the password is a string and no row
    has the submitted username yet; the token is the one signed over that
    username.  When it answers with an error instead, the users and the
    messages tables are unchanged. *)
Theorem register_route_answers_token_iff
  {C : Capabilities} (f : Fields.t) (w : World) :
  ((exists tok, fst (auth.register f w) = inr (Json None tok))
   <-> all_present f = true
       /\ is_string (Fields.password f) = true
       /\ find_user (text (Fields.username f)) w = None)
  /\ (forall tok, fst (auth.register f w) = inr (Json None tok) ->
                  tok = jwt_sign_fn (Fields.username f) SECRET_KEY)
  /\ (forall e, fst (auth.register f w) = inr (Next e) ->
                same_tables w (snd (auth.register f w))).
Proof.
  rewrite register_route_run, find_user_fresh.
  destruct (all_present f); simpl.
  - destruct (is_string (Fields.password f)); simpl.
    + destruct (Db.has_user _ (users w)); simpl.
      * split; [split|split].
        -- intros [tok Ht]. discriminate.
        -- intros (_ & _ & Hf). discriminate.
        -- intros tok Ht. discriminate.
        -- intros e _. split; reflexivity.
      * split; [split|split].
        -- intros _. repeat split; reflexivity.
        -- intros _. eexists. reflexivity.
        -- intros tok [= <-]. reflexivity.
        -- intros e He. discriminate.
    + split; [split|split].
      * intros [tok Ht]. discriminate.
      * intros (_ & Hf & _). discriminate.
      * intros tok Ht. discriminate.
      * intros e _. split; reflexivity.
  - split; [split|split].
    + intros [tok Ht]. discriminate.
    + intros [Hf _]. discriminate.
    + intros tok Ht. discriminate.
    + intros e _. split; reflexivity.
Qed.

Lemma register_route_answers_token_iff_witness :
  (exists tok, fst (auth.register (H:=Toy.capabilities) Toy.bob Toy.empty)
               = inr (Json None tok))
  /\ same_tables Toy.chat
       (snd (auth.register (H:=Toy.capabilities) Toy.bob Toy.chat))
  /\ same_tables Toy.empty
       (snd (auth.register (H:=Toy.capabilities)
               (Fields.mk (JString "bob") (JOther true "12345" "12345")
                          (JString "Bob") (JString "Mason")
                          (JString "555-0101"))
               Toy.empty)).
Proof.
  destruct (register_route_answers_token_iff (C:=Toy.capabilities)
              Toy.bob Toy.empty) as ((_ & Htok) & _ & _).
  destruct (register_route_answers_token_iff (C:=Toy.capabilities)
              Toy.bob Toy.chat) as (_ & _ & Herr).
  destruct (register_route_answers_token_iff (C:=Toy.capabilities)
              (Fields.mk (JString "bob") (JOther true "12345" "12345")
                         (JString "Bob") (JString "Mason")
                         (JString "555-0101"))
              Toy.empty) as (_ & _ & Herr').
  split; [apply Htok; repeat split; reflexivity|].
  split.
  - apply (Herr (DatabaseError "23505")). reflexivity.
  - apply (Herr' (Error (Toy.hash_error (JOther true "12345" "12345")))).
    reflexivity.
Defined.

(** ** [User.updateLoginTimestamp] and [User.get] *)

(** X8.  [User.updateLoginTimestamp] for a username that no row has fails
    with the 404 error "No such user: <username>" and leaves the users and
    the messages tables unchanged. *)
Theorem updateLoginTimestamp_missing_user (u : jsval) (w : World) :
  find_param (pg_param u) w = None ->
  fst (User.updateLoginTimestamp u w)
  = inl (NotFoundError ("No such user: " ++ show u))
  /\ same_tables w (snd (User.updateLoginTimestamp u w)).
Proof.
  intros Hu. rewrite updateLoginTimestamp_run, Hu. simpl.
  split; [reflexivity|]. split; [|reflexivity].
  apply stamp_absent. exact Hu.
Qed.

Lemma updateLoginTimestamp_missing_user_witness :
  fst (User.updateLoginTimestamp (JString "carol") Toy.chat)
  = inl (NotFoundError "No such user: carol")
  /\ same_tables Toy.chat
       (snd (User.updateLoginTimestamp (JString "carol") Toy.chat)).
Proof.
  apply (updateLoginTimestamp_missing_user (JString "carol") Toy.chat).
  reflexivity.
Defined.

(** X9.  [User.updateLoginTimestamp] then [User.get]: for an existing user
    the update returns the username and, as last_login_at, the database's
    current time when the UPDATE runs; a [get] of that user afterwards
    shows this time as last_login_at, with the username, first_name,
    last_name, phone and join_at the row had before. *)
Theorem updateLoginTimestamp_then_get (u : string) (w : World) (r : UserRow.t) :
  find_user u w = Some r ->
  exists st w1 p,
    User.updateLoginTimestamp (JString u) w = (inr st, w1)
    /\ Db.s_username st = u
    /\ Db.s_last_login_at st = clock w
    /\ fst (User.get u w1) = inr p
    /\ Db.p_last_login_at p = clock w
    /\ Db.p_username p = UserRow.username r
    /\ Db.p_first_name p = UserRow.first_name r
    /\ Db.p_last_name p = UserRow.last_name r
    /\ Db.p_phone p = UserRow.phone r
    /\ Db.p_join_at p = UserRow.join_at r.
Proof.
  intros Hr. rewrite updateLoginTimestamp_run. simpl. rewrite Hr.
  do 3 eexists. split; [reflexivity|].
  pose proof Hr as Hu. apply find_some in Hu. destruct Hu as [_ Hu].
  split; [simpl; apply String.eqb_eq; exact Hu|].
  split; [reflexivity|].
  rewrite get_run. cbv zeta. unfold find_user in *. simpl.
  rewrite find_stamp_any, Hr. simpl.
  unfold Db.stamp, Db.row_matches. rewrite Hu. simpl.
  repeat split; reflexivity.
Qed.

Lemma updateLoginTimestamp_then_get_witness :
  exists st w1 p,
    User.updateLoginTimestamp (JString "bob") Toy.chat = (inr st, w1)
    /\ Db.s_username st = "bob"
    /\ Db.s_last_login_at st = clock Toy.chat
    /\ fst (User.get "bob" w1) = inr p
    /\ Db.p_last_login_at p = clock Toy.chat
    /\ Db.p_username p = UserRow.username Toy.bob_row
    /\ Db.p_first_name p = UserRow.first_name Toy.bob_row
    /\ Db.p_last_name p = UserRow.last_name Toy.bob_row
    /\ Db.p_phone p = UserRow.phone Toy.bob_row
    /\ Db.p_join_at p = UserRow.join_at Toy.bob_row.
Proof.
  apply (updateLoginTimestamp_then_get "bob" Toy.chat Toy.bob_row).
  reflexivity.
Defined.

Lemma find_primary_key (l : list UserRow.t) (r : UserRow.t) :
  NoDup (map UserRow.username l) ->
  In r l ->
  find (fun x => (UserRow.username x =? UserRow.username r)%string) l = Some r.
Proof.
  induction l as [|x l IH]; simpl; [tauto|].
  intros Hnd [Hx|Hin]; inversion Hnd as [|? ? Hnotin Hnd']; subst.
  - rewrite String.eqb_refl. reflexivity.
  - destruct (UserRow.username x =? UserRow.username r)%string eqn:Hxr.
    + apply String.eqb_eq in Hxr. exfalso. apply Hnotin. rewrite Hxr.
      apply in_map. exact Hin.
    + apply IH; assumption.
Qed.

(** X10.  [User.get] and the rows of the table.  With usernames unique,
    [get] of the username of any row of the table returns that row's
    username, first_name, last_name, phone, join_at and last_login_at.
    And [get] fails with the 404 error "No such user: <username>" exactly
    for the usernames that no row has. *)
Theorem get_returns_the_row_of_the_username
  (w : World) (u : string) :
  primary_key w ->
  (forall r, In r (users w) ->
             fst (User.get (UserRow.username r) w)
             = inr (Db.mkProfile (UserRow.username r) (UserRow.first_name r)
                      (UserRow.last_name r) (UserRow.phone r)
                      (UserRow.join_at r) (UserRow.last_login_at r)))
  /\ (~ In u (map UserRow.username (users w))
      <-> fst (User.get u w) = inl (NotFoundError ("No such user: " ++ u))).
Proof.
  intros Hpk. split.
  - intros r Hr. rewrite get_run. cbv zeta. unfold find_user.
    rewrite (find_primary_key _ _ Hpk Hr). reflexivity.
  - rewrite get_run. cbv zeta.
    rewrite <- has_user_In, has_user_find. fold (find_user u w).
    destruct (find_user u w); simpl; split; congruence.
Qed.

Lemma get_returns_the_row_of_the_username_witness :
  fst (User.get "bob" Toy.chat)
  = inr (Db.mkProfile "bob" "Bob" "Mason" "555-0101" 1001 1001)
  /\ fst (User.get "carol" Toy.chat)
     = inl (NotFoundError "No such user: carol").
Proof.
  destruct (get_returns_the_row_of_the_username Toy.chat "carol"
              (proj1 toy_chat_integrity)) as [Hrow Hnone].
  split.
  - apply (Hrow Toy.bob_row). simpl. tauto.
  - apply Hnone. simpl. intros [H|[H|[]]]; discriminate.
Defined.

(** X11.  [User.all] and [User.get] agree.  With usernames unique and at
    least one user, [all] lists the public profiles of the users, one
    entry per row, in exactly the order in which the store returns the
    rows, and for every entry a [get] of its username returns the same
    first_name, last_name and phone. *)
Theorem all_lists_every_user_as_get_shows_it
  {C : Capabilities} (w : World) :
  primary_key w ->
  users w <> [] ->
  exists l,
    fst (User.all w) = inr l
    /\ l = arrange SelectAllUsers (after_select SelectAllUsers w)
              (map PublicProfile.of_row (users w))
    /\ Permutation (map PublicProfile.username l)
                   (map UserRow.username (users w))
    /\ forall q, In q l ->
         exists p, fst (User.get (PublicProfile.username q) w) = inr p
                   /\ Db.p_first_name p = PublicProfile.first_name q
                   /\ Db.p_last_name p = PublicProfile.last_name q
                   /\ Db.p_phone p = PublicProfile.phone q.
Proof.
  intros Hpk Hne. rewrite all_run. cbv zeta.
  pose proof (arrange_permutation _ SelectAllUsers
                (after_select SelectAllUsers w)
                (map PublicProfile.of_row (users w))) as Hperm.
  destruct (arrange _ _ _) as [|x l] eqn:Ha.
  - apply Permutation_nil in Hperm. apply map_eq_nil in Hperm. congruence.
  - exists (x :: l). split; [reflexivity|]. split; [reflexivity|]. split.
    + apply (Permutation_map PublicProfile.username) in Hperm.
      rewrite map_map in Hperm. exact Hperm.
    + intros q Hq. apply (Permutation_in _ Hperm) in Hq.
      apply in_map_iff in Hq. destruct Hq as [r [<- Hr]].
      rewrite get_run. cbv zeta. unfold find_user. simpl.
      rewrite (find_primary_key _ _ Hpk Hr).
      eexists. split; [reflexivity|]. repeat split; reflexivity.
Qed.

Lemma all_lists_every_user_as_get_shows_it_witness :
  exists l,
    fst (User.all (H:=Toy.capabilities) Toy.chat) = inr l
    /\ l = arrange (Capabilities:=Toy.capabilities) SelectAllUsers
              (after_select SelectAllUsers Toy.chat)
              (map PublicProfile.of_row (users Toy.chat))
    /\ Permutation (map PublicProfile.username l)
                   (map UserRow.username (users Toy.chat))
    /\ forall q, In q l ->
         exists p, fst (User.get (PublicProfile.username q) Toy.chat) = inr p
                   /\ Db.p_first_name p = PublicProfile.first_name q
                   /\ Db.p_last_name p = PublicProfile.last_name q
                   /\ Db.p_phone p = PublicProfile.phone q.
Proof.
  apply (all_lists_every_user_as_get_shows_it (C:=Toy.capabilities) Toy.chat
           (proj1 toy_chat_integrity)).
  discriminate.
Defined.

(** ** Operations that only read *)

(** X12.  [authenticate], [all], [get], [messagesFrom] and [messagesTo]
    never write: whether they succeed or fail, the users and the messages
    tables are the same afterwards. *)
Theorem reading_operations_write_nothing
  {C : Capabilities} (v p : jsval) (u : string) (w : World) :
  same_tables w (snd (User.authenticate v p w))
  /\ same_tables w (snd (User.all w))
  /\ same_tables w (snd (User.get u w))
  /\ same_tables w (snd (User.messagesFrom u w))
  /\ same_tables w (snd (User.messagesTo u w)).
Proof.
  rewrite authenticate_run, all_run, get_run, messagesFrom_run,
    messagesTo_run. cbv zeta. unfold same_tables.
  destruct (find_param (pg_param v) w), p, (find_user u w),
    (arrange SelectAllUsers _ _),
    (arrange (SelectMessagesFrom u) _ _),
    (arrange (SelectMessagesTo u) _ _);
    simpl; repeat split; reflexivity.
Qed.

(** ** What a login-timestamp update leaves visible *)

Lemma stamp_public param now r :
  UserRow.password (Db.stamp param now r) = UserRow.password r
  /\ UserRow.first_name (Db.stamp param now r) = UserRow.first_name r
  /\ UserRow.last_name (Db.stamp param now r) = UserRow.last_name r
  /\ UserRow.phone (Db.stamp param now r) = UserRow.phone r
  /\ UserRow.join_at (Db.stamp param now r) = UserRow.join_at r.
Proof.
  unfold Db.stamp. destruct (Db.row_matches _ _); simpl;
    repeat split; reflexivity.
Qed.

Lemma joined_rows_stamp on_col where_col n ms param now us :
  Db.joined_rows on_col where_col n ms (map (Db.stamp param now) us)
  = Db.joined_rows on_col where_col n ms us.
Proof.
  unfold Db.joined_rows. apply flat_map_ext. intros m.
  destruct (where_col m =? n)%string; [|reflexivity].
  induction us as [|r us IH]; simpl; [reflexivity|].
  rewrite stamp_username.
  destruct (on_col m =? UserRow.username r)%string; simpl; [|exact IH].
  destruct (stamp_public param now r) as (_ & -> & -> & -> & _).
  rewrite IH. reflexivity.
Qed.

Lemma of_row_stamp param now l :
  map PublicProfile.of_row (map (Db.stamp param now) l)
  = map PublicProfile.of_row l.
Proof.
  rewrite map_map. apply map_ext. intros r. unfold PublicProfile.of_row.
  rewrite stamp_username.
  destruct (stamp_public param now r) as (_ & -> & -> & -> & _).
  reflexivity.
Qed.

(** Two arrangements of the same rows give the same listing. *)
Lemma same_listing_arranged {R A} (e : exn) (g : list R -> list A)
      (l1 l2 rows : list R) :
  (forall l l', Permutation l l' -> Permutation (g l) (g l')) ->
  Permutation l1 rows -> Permutation l2 rows ->
  same_listing
    (if missing (first_row l1) then inl e else inr (g l1))
    (if missing (first_row l2) then inl e else inr (g l2)).
Proof.
  intros Hg H1 H2.
  assert (H12 : Permutation l1 l2)
    by (eapply Permutation_trans; [exact H1 | apply Permutation_sym, H2]).
  destruct l1 as [|x l1], l2 as [|y l2]; simpl.
  - reflexivity.
  - apply Permutation_nil in H12. discriminate.
  - apply Permutation_sym, Permutation_nil in H12. discriminate.
  - apply Hg. exact H12.
Qed.

Section ListResults.
Context `{Capabilities}.

Lemma all_result w :
  fst (User.all w) =
  let rows := arrange SelectAllUsers (after_select SelectAllUsers w)
                (map PublicProfile.of_row (users w)) in
  if missing (first_row rows)
  then inl (NotFoundError "No users found")
  else inr rows.
Proof.
  rewrite all_run. cbv zeta. destruct (arrange _ _ _); reflexivity.
Qed.

Lemma messagesFrom_result name w :
  fst (User.messagesFrom name w) =
  let rows := arrange (SelectMessagesFrom name)
                (after_select (SelectMessagesFrom name) w)
                (Db.joined_rows MessageRow.to_username
                   MessageRow.from_username name (messages w) (users w)) in
  if missing (first_row rows)
  then inl (NotFoundError ("No messages found from: " ++ name))
  else inr (map sent_entry rows).
Proof.
  rewrite messagesFrom_run. cbv zeta. destruct (arrange _ _ _); reflexivity.
Qed.

Lemma messagesTo_result name w :
  fst (User.messagesTo name w) =
  let rows := arrange (SelectMessagesTo name)
                (after_select (SelectMessagesTo name) w)
                (Db.joined_rows MessageRow.from_username
                   MessageRow.to_username name (messages w) (users w)) in
  if missing (first_row rows)
  then inl (NotFoundError ("No messages found to: " ++ name))
  else inr (map received_entry rows).
Proof.
  rewrite messagesTo_run. cbv zeta. destruct (arrange _ _ _); reflexivity.
Qed.
End ListResults.

(** X13.  A login-timestamp update, for any username, changes nothing that
    the other operations report: [authenticate] returns afterwards what it
    returned before, and so does [get] for every other username; [all],
    [messagesFrom] and [messagesTo] fail as before or list the same
    entries as before, in whatever order the store returns them. *)
Theorem updateLoginTimestamp_keeps_what_reads_return
  {C : Capabilities} (u v p : jsval) (n : string) (w : World) :
  let w1 := snd (User.updateLoginTimestamp u w) in
  fst (User.authenticate v p w1) = fst (User.authenticate v p w)
  /\ same_listing (fst (User.all w1)) (fst (User.all w))
  /\ same_listing (fst (User.messagesFrom n w1)) (fst (User.messagesFrom n w))
  /\ same_listing (fst (User.messagesTo n w1)) (fst (User.messagesTo n w))
  /\ (pg_param u <> Some n -> fst (User.get n w1) = fst (User.get n w)).
Proof.
  cbv zeta. rewrite updateLoginTimestamp_world.
  rewrite !authenticate_run, !all_result, !messagesFrom_result,
    !messagesTo_result, !get_run. cbv zeta.
  split; [|split; [|split; [|split]]].
  - assert (Hfind : find_param (pg_param v) (after_update (pg_param u) w)
                    = option_map (Db.stamp (pg_param u) (clock w))
                        (find_param (pg_param v) w)).
    { destruct (pg_param v) as [name|]; simpl; [|reflexivity].
      unfold find_user, after_update. simpl. apply find_stamp_any. }
    rewrite Hfind.
    destruct (find_param (pg_param v) w) as [r|]; simpl; [|reflexivity].
    destruct (stamp_public (pg_param u) (clock w) r) as (-> & _).
    destruct p; reflexivity.
  - unfold after_update at 2. simpl. rewrite of_row_stamp.
    apply (same_listing_arranged _ (fun l => l)
             _ _ (map PublicProfile.of_row (users w)));
      [tauto | apply arrange_permutation | apply arrange_permutation].
  - unfold after_update at 2. simpl. rewrite joined_rows_stamp.
    apply (same_listing_arranged _ (map sent_entry)
             _ _ (Db.joined_rows MessageRow.to_username
                    MessageRow.from_username n (messages w) (users w)));
      [apply Permutation_map | apply arrange_permutation
       | apply arrange_permutation].
  - unfold after_update at 2. simpl. rewrite joined_rows_stamp.
    apply (same_listing_arranged _ (map received_entry)
             _ _ (Db.joined_rows MessageRow.from_username
                    MessageRow.to_username n (messages w) (users w)));
      [apply Permutation_map | apply arrange_permutation
       | apply arrange_permutation].
  - intros Hn. unfold find_user, after_update. simpl.
    rewrite find_stamp_any.
    destruct (find _ (users w)) as [r|] eqn:Hr; simpl; [|reflexivity].
    apply find_some in Hr. destruct Hr as [_ Hr].
    apply String.eqb_eq in Hr.
    unfold Db.stamp, Db.row_matches.
    destruct (pg_param u) as [name|]; [|reflexivity].
    destruct (UserRow.username r =? name)%string eqn:Hru; [|reflexivity].
    apply String.eqb_eq in Hru. congruence.
Qed.

Lemma updateLoginTimestamp_keeps_what_reads_return_witness :
  fst (User.get "alice"
         (snd (User.updateLoginTimestamp (JString "bob") Toy.chat)))
  = fst (User.get "alice" Toy.chat).
Proof.
  destruct (updateLoginTimestamp_keeps_what_reads_return
              (C:=Toy.capabilities) (JString "bob") (JString "alice")
              (JString "wonderland") "alice" Toy.chat)
    as (_ & _ & _ & _ & Hget).
  apply Hget. discriminate.
Defined.

(** ** The table constraints are kept *)

(** X14.  Uniqueness of usernames and the references of the messages to
    existing users are invariants: when they hold before a call of
    [User.register], of [User.updateLoginTimestamp], of the login route or
    of the register route, they hold after it, whatever the call's
    outcome. *)
Theorem operations_keep_the_table_constraints
  {C : Capabilities} (f : Fields.t) (u p : jsval) (w : World) :
  integrity w ->
  integrity (snd (User.register f w))
  /\ integrity (snd (User.updateLoginTimestamp u w))
  /\ integrity (snd (auth.login u p w))
  /\ integrity (snd (auth.register f w)).
Proof.
  intros Hw.
  split; [apply register_preserves_integrity; exact Hw|].
  split; [apply updateLoginTimestamp_preserves_integrity; exact Hw|].
  split.
  - rewrite login_run. cbv zeta.
    destruct (find_param (pg_param u) w) as [r|];
      [destruct p as [| |s|];
       [| |destruct (bcrypt_compare_fn s (UserRow.password r))|]|];
      (apply (integrity_same_usernames w); [| reflexivity | exact Hw]);
      simpl; rewrite ?stamp_usernames; reflexivity.
  - pose proof (register_preserves_integrity f w Hw) as Hreg.
    rewrite register_route_run.
    destruct (all_present f) eqn:Hf; [|exact Hw].
    destruct (is_string (Fields.password f)) eqn:Hs;
      [|apply (integrity_same_usernames w); [reflexivity..|exact Hw]].
    rewrite (register_valid _ _ Hf Hs) in Hreg.
    destruct (Db.has_user _ (users w));
      (apply (integrity_same_usernames _ _) with (3 := Hreg));
      simpl; rewrite ?stamp_usernames; reflexivity.
Qed.

Lemma operations_keep_the_table_constraints_witness :
  integrity (snd (User.register (H:=Toy.capabilities) Toy.bob Toy.chat))
  /\ integrity (snd (User.updateLoginTimestamp (JString "alice") Toy.chat))
  /\ integrity (snd (auth.login (H:=Toy.capabilities) (JString "alice")
                       (JString "wonderland") Toy.chat))
  /\ integrity (snd (auth.register (H:=Toy.capabilities) Toy.bob Toy.chat)).
Proof.
  apply (operations_keep_the_table_constraints (C:=Toy.capabilities)
           Toy.bob (JString "alice") (JString "wonderland") Toy.chat
           toy_chat_integrity).
Defined.

(** ** Registration and the accounts that exist *)

Lemma find_app_found {A} (f : A -> bool) (l1 l2 : list A) (a : A) :
  find f l1 = Some a -> find f (l1 ++ l2) = Some a.
Proof.
  induction l1 as [|x l1 IH]; simpl; [discriminate|].
  destruct (f x); [tauto | exact IH].
Qed.

Lemma register_users `{Capabilities} f w :
  users (snd (User.register f w)) = users w
  \/ users (snd (User.register f w)) = (users w ++ [inserted_row f w])%list.
Proof.
  destruct (all_present f) eqn:Hf.
  - destruct (is_string (Fields.password f)) eqn:Hs.
    + rewrite (register_valid _ _ Hf Hs).
      destruct (Db.has_user _ (users w)); [left | right]; reflexivity.
    + rewrite (register_not_string _ _ Hf Hs). left. reflexivity.
  - rewrite (register_invalid _ _ Hf). left. reflexivity.
Qed.

(** X15.  Once a username is registered, registering it again fails and
    writes nothing, whatever password, names and phone the second payload
    carries. *)
Theorem register_same_username_again_fails
  {C : Capabilities} (f g : Fields.t) (w : World)
  (r : option Db.registered) (w1 : World) :
  User.register f w = (inr r, w1) ->
  Fields.username g = Fields.username f ->
  (exists e, fst (User.register g w1) = inl e)
  /\ same_tables w1 (snd (User.register g w1)).
Proof.
  intros Hreg Hu.
  destruct (find_user_after_register f w r w1 Hreg) as [Hfind _].
  rewrite <- Hu in Hfind.
  assert (Hhas : Db.has_user (text (Fields.username g)) (users w1) = true).
  { rewrite has_user_find. unfold find_user in Hfind. rewrite Hfind.
    reflexivity. }
  destruct (all_present g) eqn:Hg.
  - destruct (is_string (Fields.password g)) eqn:Hs.
    + rewrite (register_valid _ _ Hg Hs), Hhas. simpl.
      split; [eexists; reflexivity | split; reflexivity].
    + rewrite (register_not_string _ _ Hg Hs). simpl.
      split; [eexists; reflexivity | split; reflexivity].
  - rewrite (register_invalid _ _ Hg). simpl.
    split; [eexists; reflexivity | split; reflexivity].
Qed.

Lemma register_same_username_again_fails_witness :
  (exists e,
      fst (User.register (H:=Toy.capabilities)
             (Fields.mk (JString "bob") (JString "other") (JString "Robert")
                        (JString "Mason") (JString "555-0199"))
             (snd (User.register (H:=Toy.capabilities) Toy.bob Toy.empty)))
      = inl e)
  /\ same_tables
       (snd (User.register (H:=Toy.capabilities) Toy.bob Toy.empty))
       (snd (User.register (H:=Toy.capabilities)
               (Fields.mk (JString "bob") (JString "other") (JString "Robert")
                          (JString "Mason") (JString "555-0199"))
               (snd (User.register (H:=Toy.capabilities) Toy.bob
                       Toy.empty)))).
Proof.
  apply (register_same_username_again_fails (C:=Toy.capabilities)
           Toy.bob
           (Fields.mk (JString "bob") (JString "other") (JString "Robert")
                      (JString "Mason") (JString "555-0199"))
           Toy.empty
           (Some (Db.mkRegistered "bob" "$2b$builder" "Bob" "Mason"
                                  "555-0101"))
           (snd (User.register (H:=Toy.capabilities) Toy.bob Toy.empty)));
    reflexivity.
Defined.

(** X16.  A registration, successful or not, leaves every existing account
    as it is: for a username that a row already has, [authenticate] and
    [get] return after the call of [User.register] what they returned
    before it. *)
Theorem register_leaves_existing_accounts
  {C : Capabilities} (f : Fields.t) (n : string) (p : jsval) (w : World)
  (r : UserRow.t) :
  find_user n w = Some r ->
  fst (User.authenticate (JString n) p (snd (User.register f w)))
  = fst (User.authenticate (JString n) p w)
  /\ fst (User.get n (snd (User.register f w))) = fst (User.get n w).
Proof.
  intros Hr.
  assert (Hfind : find_user n (snd (User.register f w)) = Some r).
  { unfold find_user in *.
    destruct (register_users f w) as [-> | ->];
      [exact Hr | apply find_app_found; exact Hr]. }
  rewrite !authenticate_run, !get_run. cbv zeta. simpl.
  rewrite Hfind, Hr. split; [destruct p|]; reflexivity.
Qed.

Lemma register_leaves_existing_accounts_witness :
  fst (User.authenticate (H:=Toy.capabilities) (JString "alice")
         (JString "wonderland")
         (snd (User.register (H:=Toy.capabilities)
                 (Fields.mk (JString "carol") (JString "singer")
                            (JString "Carol") (JString "King")
                            (JString "555-0102"))
                 Toy.chat)))
  = fst (User.authenticate (H:=Toy.capabilities) (JString "alice")
           (JString "wonderland") Toy.chat)
  /\ fst (User.get "alice"
            (snd (User.register (H:=Toy.capabilities)
                    (Fields.mk (JString "carol") (JString "singer")
                               (JString "Carol") (JString "King")
                               (JString "555-0102"))
                    Toy.chat)))
     = fst (User.get "alice" Toy.chat).
Proof.
  apply (register_leaves_existing_accounts (C:=Toy.capabilities)
           (Fields.mk (JString "carol") (JString "singer") (JString "Carol")
                      (JString "King") (JString "555-0102"))
           "alice" (JString "wonderland") Toy.chat Toy.alice_row).
  reflexivity.
Defined.

(** ** Sent and received lists describe the same messages *)

Lemma filter_map_swap {A B} (P : B -> bool) (g : A -> B) (l : list A) :
  filter P (map g l) = map g (filter (fun a => P (g a)) l).
Proof.
  induction l as [|a l IH]; simpl; [reflexivity|].
  destruct (P (g a)); simpl; rewrite IH; reflexivity.
Qed.

Lemma Permutation_filter {A} (P : A -> bool) (l l' : list A) :
  Permutation l l' -> Permutation (filter P l) (filter P l').
Proof.
  induction 1 as [|x l l' _ IH|x y l|l l' l'' _ IH1 _ IH2]; simpl.
  - constructor.
  - destruct (P x); [constructor|]; exact IH.
  - destruct (P x), (P y); try apply Permutation_refl.
    apply perm_swap.
  - eapply Permutation_trans; eassumption.
Qed.

(** Under the primary key and the foreign key on [on_col], the ids of the
    joined rows whose counterpart is [b] are the ids of the messages
    selected by the WHERE clause whose [on_col] is [b]. *)
Lemma joined_rows_ids on_col where_col a b ms us :
  NoDup (map UserRow.username us) ->
  Forall (fun m => In (on_col m) (map UserRow.username us)) ms ->
  map Db.j_id
      (filter (fun row => (Db.j_counterpart row =? b)%string)
              (Db.joined_rows on_col where_col a ms us))
  = map MessageRow.id
        (filter (fun m => (where_col m =? a)%string && (on_col m =? b)%string)
                ms).
Proof.
  intros Hpk. unfold Db.joined_rows.
  induction 1 as [|m ms Hm Hms IH]; simpl; [reflexivity|].
  destruct (where_col m =? a)%string; simpl; [|exact IH].
  destruct (find_present _ _ Hm) as [r Hr].
  rewrite (filter_primary_key _ _ _ Hpk Hr). simpl.
  destruct (on_col m =? b)%string; simpl; rewrite IH; reflexivity.
Qed.

Section Listed.
Context `{Capabilities}.

Lemma messagesFrom_listed name w :
  listed (fst (User.messagesFrom name w))
  = map sent_entry
        (arrange (SelectMessagesFrom name)
           (after_select (SelectMessagesFrom name) w)
           (Db.joined_rows MessageRow.to_username MessageRow.from_username
              name (messages w) (users w))).
Proof.
  rewrite messagesFrom_run. cbv zeta.
  destruct (arrange _ _ _); reflexivity.
Qed.

Lemma messagesTo_listed name w :
  listed (fst (User.messagesTo name w))
  = map received_entry
        (arrange (SelectMessagesTo name)
           (after_select (SelectMessagesTo name) w)
           (Db.joined_rows MessageRow.from_username MessageRow.to_username
              name (messages w) (users w))).
Proof.
  rewrite messagesTo_run. cbv zeta.
  destruct (arrange _ _ _); reflexivity.
Qed.
End Listed.

(** X17.  With usernames unique and every message referring to existing
    users: the messages that [messagesFrom a] lists with recipient [b] are
    the messages that [messagesTo b] lists with sender [a]: the same ids,
    each as many times, in whatever order each list comes (a list
    operation that fails lists nothing). *)
Theorem messagesFrom_and_messagesTo_agree
  {C : Capabilities} (w : World) (a b : string) :
  integrity w ->
  Permutation
    (map SentMessage.id
         (filter (fun o => (PublicProfile.username (SentMessage.to_user o)
                            =? b)%string)
                 (listed (fst (User.messagesFrom a w)))))
    (map ReceivedMessage.id
         (filter (fun o => (PublicProfile.username
                              (ReceivedMessage.from_user o) =? a)%string)
                 (listed (fst (User.messagesTo b w))))).
Proof.
  intros [Hpk Hfk].
  rewrite messagesFrom_listed, messagesTo_listed.
  rewrite !filter_map_swap, !map_map. simpl.
  pose proof (joined_rows_ids MessageRow.to_username MessageRow.from_username
                a b _ _ Hpk (foreign_keys_to w Hfk)) as Hfrom.
  pose proof (joined_rows_ids MessageRow.from_username MessageRow.to_username
                b a _ _ Hpk (foreign_keys_from w Hfk)) as Hto.
  eapply Permutation_trans.
  { apply (Permutation_map Db.j_id).
    apply Permutation_filter. apply arrange_permutation. }
  eapply Permutation_trans;
    [|apply Permutation_sym; apply (Permutation_map Db.j_id);
      apply Permutation_filter; apply arrange_permutation].
  etransitivity; [rewrite Hfrom; reflexivity|].
  rewrite Hto.
  erewrite filter_ext; [reflexivity|]. intros m. apply andb_comm.
Qed.

Lemma messagesFrom_and_messagesTo_agree_witness :
  Permutation
    (map SentMessage.id
         (filter (fun o => (PublicProfile.username (SentMessage.to_user o)
                            =? "bob")%string)
                 (listed (fst (User.messagesFrom (H:=Toy.capabilities)
                                 "alice" Toy.chat)))))
    (map ReceivedMessage.id
         (filter (fun o => (PublicProfile.username
                              (ReceivedMessage.from_user o) =? "alice")%string)
                 (listed (fst (User.messagesTo (H:=Toy.capabilities)
                                 "bob" Toy.chat))))).
Proof.
  apply (messagesFrom_and_messagesTo_agree (C:=Toy.capabilities)
           Toy.chat "alice" "bob" toy_chat_integrity).
Defined.
